(** * fullstack-template: configuration, feature flags, service helpers and
      the service container

    A shallow embedding of the worker's core:

    - [worker/config/environment.ts]   (EnvironmentSchema, validateEnvironment,
                                        validateProductionEnvironment)
    - [worker/config/app-settings.ts]  (the three settings tables, in the
                                        version that declares the [api]
                                        group [createConfig] copies, and
                                        getAppSettings)
    - [worker/config/index.ts]         (AppConfig, createConfig)
    - [worker/lib/feature-flags.ts]    (FeatureFlags.isEnabled and helpers)
    - [worker/services/base.service.ts] (applyPagination, applySorting,
                                        applyTextSearch)
    - [worker/container/container.ts]  (Container)

    JavaScript strings are modelled by [string] (one character per code
    unit), JavaScript numbers that the code only uses as integers by [Z],
    exceptions by an explicit result type, and objects that the code mutates
    or compares by reference (arrays, registrations, containers, service
    instances) by addresses into an explicit store. *)

From Stdlib Require Import ZArith Lia Ascii.
From stdpp Require Import base option list strings pretty gmap.

Local Open Scope string_scope.
Local Open Scope Z_scope.

(** ** Results of code that may throw *)

Inductive Exn : Type :=
  | ZodError                      (* thrown by EnvironmentSchema.parse *)
  | EnvironmentValidationFailed   (* 'Environment validation failed: ...' *)
  | AuthSecretRequired            (* 'BETTER_AUTH_SECRET is required in production' *)
  | AuthSecretTooShort            (* 'BETTER_AUTH_SECRET must be at least 32 characters in production' *)
  | ServiceNotRegistered (token : string)  (* `Service '${token}' not registered` *)
  | NotAConstructor               (* TypeError: `new` applied to an arrow function *)
  | ServiceError (msg : string).  (* an exception raised by a service constructor *)

Inductive Result (A : Type) : Type :=
  | Ok (a : A)
  | Throw (e : Exn).
Arguments Ok {A} a.
Arguments Throw {A} e.

Definition is_Ok {A} (r : Result A) : bool :=
  match r with Ok _ => true | Throw _ => false end.

Definition throws {A} (r : Result A) : Prop :=
  exists e, r = Throw e.

#[export] Instance Result_ret : MRet Result := fun _ a => Ok a.
#[export] Instance Result_bind : MBind Result := fun _ _ f r =>
  match r with Ok a => f a | Throw e => Throw e end.

(** ** Deployment tiers *)

Inductive Tier : Type := development | staging | production.

#[export] Instance Tier_eq_dec : EqDecision Tier.
Proof. solve_decision. Defined.

Definition tier_name (t : Tier) : string :=
  match t with
  | development => "development"
  | staging => "staging"
  | production => "production"
  end.

(** ** worker/config/app-settings.ts *)

Module Settings.

Record App := { name : string; version : string; environment : Tier }.

Record Database := {
  maxConnections : Z;
  queryTimeout : Z;
  enableLogging : bool;
  retryAttempts : Z }.

Record Auth := {
  sessionDuration : Z;
  tokenExpiry : Z;
  requireEmailVerification : bool;
  allowedDomains : option (list string) }.

Record Features := {
  registration : bool;
  oauth : bool;
  emailVerification : bool;
  maintenanceMode : bool;
  betaFeatures : bool }.

Record RateLimit := {
  requests : Z;
  windowMs : Z;
  skipSuccessfulRequests : bool;
  skipFailedRequests : bool }.

Inductive LogLevel := debug | info | warn | error.

Record Logging := {
  level : LogLevel;
  enableRequestLogging : bool;
  enableErrorTracking : bool;
  maxLogSize : Z }.

Record Templates := {
  welcome : string;
  passwordReset : string;
  tpl_emailVerification : string }.

Record Email := {
  from : string;
  replyTo : option string;
  templates : Templates }.

Record Performance := {
  enableCaching : bool;
  cacheTimeout : Z;
  enableCompression : bool }.

Record Security := {
  corsOrigins : list string;
  allowedHosts : list string;
  enableCSP : bool;
  rateLimitStrict : bool }.

Record Contact := { contact_name : string; contact_email : string }.
Record License := { license_name : string; license_url : string }.
Record Server := { server_url : string; server_description : string }.
Record Tag := { tag_name : string; tag_description : string }.

Record OpenApi := {
  openapi_version : string;
  title : string;
  description : string;
  contact : Contact;
  license : License;
  servers : list Server;
  tags : list Tag }.

Record Api := { openapi : OpenApi }.

Record AppSettings := {
  app : App;
  database : Database;
  auth : Auth;
  features : Features;
  rateLimit : RateLimit;
  logging : Logging;
  email : Email;
  performance : Performance;
  security : Security;
  api : Api }.

Definition apiTags : list Tag :=
  [ {| tag_name := "Users";
       tag_description := "User profile management operations" |};
    {| tag_name := "Authentication";
       tag_description := "User authentication and authorization" |};
    {| tag_name := "System";
       tag_description := "System health and utility endpoints" |} ].

Definition apiDescription : string :=
  "A comprehensive API built with Hono, featuring RPC type safety and OpenAPI documentation".

Definition mitLicense : License :=
  {| license_name := "MIT"; license_url := "https://opensource.org/licenses/MIT" |}.

Definition developmentSettings : AppSettings := {|
  app := {| name := "Modern Template"; version := "1.0.0";
            environment := development |};
  database := {| maxConnections := 5; queryTimeout := 10000;
                 enableLogging := true; retryAttempts := 3 |};
  auth := {| sessionDuration := 24 * 60 * 60 * 1000;
             tokenExpiry := 15 * 60 * 1000;
             requireEmailVerification := false;
             allowedDomains := Some ["localhost"; "127.0.0.1"] |};
  features := {| registration := true; oauth := false;
                 emailVerification := false; maintenanceMode := true;
                 betaFeatures := true |};
  rateLimit := {| requests := 1000; windowMs := 60000;
                  skipSuccessfulRequests := false;
                  skipFailedRequests := false |};
  logging := {| level := debug; enableRequestLogging := true;
                enableErrorTracking := true; maxLogSize := 1024 * 1024 |};
  email := {| from := "dev@yourapp.com"; replyTo := Some "dev@yourapp.com";
              templates := {| welcome := "Welcome to our app (Dev)";
                              passwordReset := "Password reset (Dev)";
                              tpl_emailVerification := "Verify your email (Dev)" |} |};
  performance := {| enableCaching := false; cacheTimeout := 300000;
                    enableCompression := false |};
  security := {| corsOrigins := ["http://localhost:5173"; "http://localhost:3000"];
                 allowedHosts := ["localhost"; "127.0.0.1"];
                 enableCSP := false; rateLimitStrict := false |};
  api := {| openapi := {|
    openapi_version := "1.0.0";
    title := "Fullstack Template API";
    description := apiDescription;
    contact := {| contact_name := "API Support";
                  contact_email := "dev@yourapp.com" |};
    license := mitLicense;
    servers := [ {| server_url := "/";
                    server_description := "Development server" |};
                 {| server_url := "http://localhost:5173";
                    server_description := "Local development server" |} ];
    tags := apiTags |} |} |}.

Definition stagingSettings : AppSettings := {|
  app := {| name := "Modern Template"; version := "1.0.0";
            environment := staging |};
  database := {| maxConnections := 10; queryTimeout := 20000;
                 enableLogging := true; retryAttempts := 3 |};
  auth := {| sessionDuration := 7 * 24 * 60 * 60 * 1000;
             tokenExpiry := 30 * 60 * 1000;
             requireEmailVerification := true;
             allowedDomains := None |};
  features := {| registration := true; oauth := true;
                 emailVerification := true; maintenanceMode := false;
                 betaFeatures := true |};
  rateLimit := {| requests := 500; windowMs := 60000;
                  skipSuccessfulRequests := true;
                  skipFailedRequests := false |};
  logging := {| level := info; enableRequestLogging := true;
                enableErrorTracking := true; maxLogSize := 5 * 1024 * 1024 |};
  email := {| from := "staging@yourapp.com";
              replyTo := Some "support@yourapp.com";
              templates := {| welcome := "Welcome to our app";
                              passwordReset := "Password reset request";
                              tpl_emailVerification := "Verify your email address" |} |};
  performance := {| enableCaching := true; cacheTimeout := 600000;
                    enableCompression := true |};
  security := {| corsOrigins := ["https://staging.yourapp.com"];
                 allowedHosts := ["staging.yourapp.com"];
                 enableCSP := true; rateLimitStrict := true |};
  api := {| openapi := {|
    openapi_version := "1.0.0";
    title := "Fullstack Template API";
    description := apiDescription;
    contact := {| contact_name := "API Support";
                  contact_email := "support@yourapp.com" |};
    license := mitLicense;
    servers := [ {| server_url := "https://staging.yourapp.com/api/v1";
                    server_description := "Staging server" |} ];
    tags := apiTags |} |} |}.

Definition productionSettings : AppSettings := {|
  app := {| name := "Modern Template"; version := "1.0.0";
            environment := production |};
  database := {| maxConnections := 20; queryTimeout := 30000;
                 enableLogging := false; retryAttempts := 5 |};
  auth := {| sessionDuration := 7 * 24 * 60 * 60 * 1000;
             tokenExpiry := 60 * 60 * 1000;
             requireEmailVerification := true;
             allowedDomains := None |};
  features := {| registration := true; oauth := true;
                 emailVerification := true; maintenanceMode := false;
                 betaFeatures := false |};
  rateLimit := {| requests := 100; windowMs := 60000;
                  skipSuccessfulRequests := true;
                  skipFailedRequests := false |};
  logging := {| level := warn; enableRequestLogging := false;
                enableErrorTracking := true; maxLogSize := 10 * 1024 * 1024 |};
  email := {| from := "noreply@yourapp.com";
              replyTo := Some "support@yourapp.com";
              templates := {| welcome := "Welcome to our app";
                              passwordReset := "Password reset request";
                              tpl_emailVerification := "Verify your email address" |} |};
  performance := {| enableCaching := true; cacheTimeout := 3600000;
                    enableCompression := true |};
  security := {| corsOrigins := ["https://yourapp.com"; "https://www.yourapp.com"];
                 allowedHosts := ["yourapp.com"; "www.yourapp.com"];
                 enableCSP := true; rateLimitStrict := true |};
  api := {| openapi := {|
    openapi_version := "1.0.0";
    title := "Fullstack Template API";
    description := apiDescription;
    contact := {| contact_name := "API Support";
                  contact_email := "support@yourapp.com" |};
    license := mitLicense;
    servers := [ {| server_url := "https://yourapp.com";
                    server_description := "Production server" |} ];
    tags := apiTags |} |} |}.

(** [getAppSettings(environment: string = 'development')]: the argument
    is [None] when the caller passes [undefined]. *)
Definition getAppSettings (environment : option string) : AppSettings :=
  let environment := default "development" environment in
  if String.eqb environment "production" then productionSettings
  else if String.eqb environment "staging" then stagingSettings
  else developmentSettings.

End Settings.

(** ** worker/config/environment.ts *)

(** A value bound to a key of the raw environment: a string, a number, a
    boolean, or a platform binding object (D1 database, KV namespace). An
    absent key reads as [undefined], i.e. the lookup is [None]. *)
Inductive Raw : Type :=
  | RStr (s : string)
  | RNum (n : Z)
  | RBool (b : bool)
  | RBinding (handle : nat).

#[export] Instance Raw_eq_dec : EqDecision Raw.
Proof. solve_decision. Defined.

Abbreviation RawEnvironment := (gmap string Raw).

(** What the schema relies on from the JavaScript runtime and is not code
    of this repository: whether a string parses as a URL ([z.string().url()])
    and the numeric value of a string ([Number(s)], [None] standing for NaN,
    used by [z.coerce.number()]). *)
Class Runtime : Type := {
  is_url : string -> bool;
  Number_of_string : string -> option Z }.

Module Env.

(** The parsed environment, [z.infer<typeof EnvironmentSchema>]. *)
Record Environment := {
  DB : option Raw;
  KV : option Raw;
  NODE_ENV : Tier;
  DATABASE_URL : option string;
  BETTER_AUTH_SECRET : option string;
  BETTER_AUTH_URL : option string;
  GITHUB_CLIENT_ID : option string;
  GITHUB_CLIENT_SECRET : option string;
  GOOGLE_CLIENT_ID : option string;
  GOOGLE_CLIENT_SECRET : option string;
  SMTP_HOST : option string;
  SMTP_PORT : option Z;
  SMTP_USER : option string;
  SMTP_PASS : option string;
  API_KEY : option string;
  WEBHOOK_SECRET : option string;
  REDIS_URL : option string;
  SENTRY_DSN : option string;
  CLOUDFLARE_ACCOUNT_ID : option string;
  CLOUDFLARE_DATABASE_ID : option string;
  CLOUDFLARE_D1_TOKEN : option string }.

(** *** The zod combinators the schema uses.  A parser returns [None]
    when zod records an issue for the field. *)

Definition z_custom (x : Raw) : option Raw := Some x.

Definition z_string (x : Raw) : option string :=
  match x with RStr s => Some s | _ => None end.

Definition z_string_min (n : nat) (x : Raw) : option string :=
  s ← z_string x;
  if (n <=? String.length s)%nat then Some s else None.

Definition z_string_url `{Runtime} (x : Raw) : option string :=
  s ← z_string x;
  if is_url s then Some s else None.

Definition z_enum_tier (x : Raw) : option Tier :=
  s ← z_string x;
  if String.eqb s "development" then Some development
  else if String.eqb s "staging" then Some staging
  else if String.eqb s "production" then Some production
  else None.

(** [z.coerce.number()]: [Number(input)], rejected when NaN. *)
Definition z_coerce_number `{Runtime} (x : Raw) : option Z :=
  match x with
  | RNum n => Some n
  | RStr s => Number_of_string s
  | RBool b => Some (if b then 1 else 0)
  | RBinding _ => None
  end.

Definition z_optional {A} (p : Raw -> option A) (x : option Raw)
  : option (option A) :=
  match x with
  | None => Some None
  | Some v => Some <$> p v
  end.

Definition z_default {A} (p : Raw -> option A) (d : A) (x : option Raw)
  : option A :=
  match x with
  | None => Some d
  | Some v => p v
  end.

(** [EnvironmentSchema.parse(env)]: [None] is a thrown ZodError.  Keys
    the schema does not declare are dropped. *)
Definition EnvironmentSchema_parse `{Runtime} (env : RawEnvironment)
  : option Environment :=
  db ← z_optional z_custom (env !! "DB");
  kv ← z_optional z_custom (env !! "KV");
  node_env ← z_default z_enum_tier development (env !! "NODE_ENV");
  database_url ← z_optional z_string (env !! "DATABASE_URL");
  secret ← z_optional (z_string_min 32) (env !! "BETTER_AUTH_SECRET");
  auth_url ← z_optional z_string_url (env !! "BETTER_AUTH_URL");
  gh_id ← z_optional z_string (env !! "GITHUB_CLIENT_ID");
  gh_secret ← z_optional z_string (env !! "GITHUB_CLIENT_SECRET");
  go_id ← z_optional z_string (env !! "GOOGLE_CLIENT_ID");
  go_secret ← z_optional z_string (env !! "GOOGLE_CLIENT_SECRET");
  smtp_host ← z_optional z_string (env !! "SMTP_HOST");
  smtp_port ← z_optional z_coerce_number (env !! "SMTP_PORT");
  smtp_user ← z_optional z_string (env !! "SMTP_USER");
  smtp_pass ← z_optional z_string (env !! "SMTP_PASS");
  api_key ← z_optional z_string (env !! "API_KEY");
  webhook ← z_optional z_string (env !! "WEBHOOK_SECRET");
  redis ← z_optional z_string (env !! "REDIS_URL");
  sentry ← z_optional z_string (env !! "SENTRY_DSN");
  cf_account ← z_optional z_string (env !! "CLOUDFLARE_ACCOUNT_ID");
  cf_database ← z_optional z_string (env !! "CLOUDFLARE_DATABASE_ID");
  cf_token ← z_optional z_string (env !! "CLOUDFLARE_D1_TOKEN");
  Some {| DB := db; KV := kv; NODE_ENV := node_env;
          DATABASE_URL := database_url;
          BETTER_AUTH_SECRET := secret; BETTER_AUTH_URL := auth_url;
          GITHUB_CLIENT_ID := gh_id; GITHUB_CLIENT_SECRET := gh_secret;
          GOOGLE_CLIENT_ID := go_id; GOOGLE_CLIENT_SECRET := go_secret;
          SMTP_HOST := smtp_host; SMTP_PORT := smtp_port;
          SMTP_USER := smtp_user; SMTP_PASS := smtp_pass;
          API_KEY := api_key; WEBHOOK_SECRET := webhook;
          REDIS_URL := redis; SENTRY_DSN := sentry;
          CLOUDFLARE_ACCOUNT_ID := cf_account;
          CLOUDFLARE_DATABASE_ID := cf_database;
          CLOUDFLARE_D1_TOKEN := cf_token |}.

(** [validateEnvironment]: the [catch] branch tests the NODE_ENV of the
    raw input with [===] against the string 'development'. *)
Definition validateEnvironment `{Runtime} (env : RawEnvironment)
  : Result Environment :=
  match EnvironmentSchema_parse env with
  | Some e => Ok e
  | None =>
      if decide (env !! "NODE_ENV" = Some (RStr "development")) then
        match EnvironmentSchema_parse ∅ with
        | Some e => Ok e
        | None => Throw ZodError
        end
      else Throw EnvironmentValidationFailed
  end.

(** [!s] for an optional string: absent or empty. *)
Definition falsy (s : option string) : bool :=
  match s with
  | None => true
  | Some s => String.eqb s ""
  end.

(** [validateProductionEnvironment]; the [console.warn] about a missing
    DB binding has no effect on the result and is left out. *)
Definition validateProductionEnvironment (env : Environment) : Result unit :=
  if decide (NODE_ENV env = production) then
    if falsy (BETTER_AUTH_SECRET env) then Throw AuthSecretRequired
    else if (String.length (default "" (BETTER_AUTH_SECRET env)) <? 32)%nat
         then Throw AuthSecretTooShort
    else Ok tt
  else Ok tt.

End Env.

(** ** worker/config/index.ts *)

Module Config.

Record Database := {
  url : option string;
  maxConnections : Z;
  queryTimeout : Z;
  enableLogging : bool;
  retryAttempts : Z }.

Record OAuthClient := {
  clientId : option string;
  clientSecret : option string }.

Record OAuth := { github : OAuthClient; google : OAuthClient }.

Record Auth := {
  secret : option string;
  baseUrl : option string;
  sessionDuration : Z;
  tokenExpiry : Z;
  requireEmailVerification : bool;
  oauth : OAuth }.

Record Smtp := {
  host : option string;
  port : option Z;
  user : option string;
  pass : option string }.

Record Email := {
  smtp : option Smtp;
  from : string;
  replyTo : option string;
  templates : Settings.Templates }.

Record External := {
  apiKey : option string;
  webhookSecret : option string;
  sentryDsn : option string;
  redisUrl : option string }.

Record AppConfig := {
  app : Settings.App;
  database : Database;
  auth : Auth;
  email : Email;
  features : Settings.Features;
  rateLimit : Settings.RateLimit;
  logging : Settings.Logging;
  performance : Settings.Performance;
  security : Settings.Security;
  api : Settings.Api;
  external : External }.

(** The object literal [createConfig] returns. *)
Definition compose (environment : Env.Environment)
    (appSettings : Settings.AppSettings) : AppConfig := {|
  app := Settings.app appSettings;
  database := {|
    url := Env.DATABASE_URL environment;
    maxConnections := Settings.maxConnections (Settings.database appSettings);
    queryTimeout := Settings.queryTimeout (Settings.database appSettings);
    enableLogging := Settings.enableLogging (Settings.database appSettings);
    retryAttempts := Settings.retryAttempts (Settings.database appSettings) |};
  auth := {|
    secret := Env.BETTER_AUTH_SECRET environment;
    baseUrl := Env.BETTER_AUTH_URL environment;
    sessionDuration := Settings.sessionDuration (Settings.auth appSettings);
    tokenExpiry := Settings.tokenExpiry (Settings.auth appSettings);
    requireEmailVerification :=
      Settings.requireEmailVerification (Settings.auth appSettings);
    oauth := {|
      github := {| clientId := Env.GITHUB_CLIENT_ID environment;
                   clientSecret := Env.GITHUB_CLIENT_SECRET environment |};
      google := {| clientId := Env.GOOGLE_CLIENT_ID environment;
                   clientSecret := Env.GOOGLE_CLIENT_SECRET environment |} |} |};
  email := {|
    smtp := if Env.falsy (Env.SMTP_HOST environment) then None
            else Some {| host := Env.SMTP_HOST environment;
                         port := Env.SMTP_PORT environment;
                         user := Env.SMTP_USER environment;
                         pass := Env.SMTP_PASS environment |};
    from := Settings.from (Settings.email appSettings);
    replyTo := Settings.replyTo (Settings.email appSettings);
    templates := Settings.templates (Settings.email appSettings) |};
  features := Settings.features appSettings;
  rateLimit := Settings.rateLimit appSettings;
  logging := Settings.logging appSettings;
  performance := Settings.performance appSettings;
  security := Settings.security appSettings;
  api := Settings.api appSettings;
  external := {|
    apiKey := Env.API_KEY environment;
    webhookSecret := Env.WEBHOOK_SECRET environment;
    sentryDsn := Env.SENTRY_DSN environment;
    redisUrl := Env.REDIS_URL environment |} |}.

Definition createConfig `{Runtime} (env : RawEnvironment) : Result AppConfig :=
  environment ← Env.validateEnvironment env;
  let appSettings :=
    Settings.getAppSettings (Some (tier_name (Env.NODE_ENV environment))) in
  _ ← (if decide (Env.NODE_ENV environment = production)
       then Env.validateProductionEnvironment environment
       else Ok tt);
  Ok (compose environment appSettings).

End Config.

(** A runtime used for the concrete evaluations below: absolute http(s)
    URLs, and strings of decimal digits as numbers. *)
Fixpoint digits_value (acc : Z) (s : string) : option Z :=
  match s with
  | EmptyString => Some acc
  | String c r =>
      let n := Z.of_N (Ascii.N_of_ascii c) in
      if (48 <=? n) && (n <=? 57) then digits_value (10 * acc + (n - 48)) r
      else None
  end.

#[export] Instance sample_runtime : Runtime := {|
  is_url s := String.prefix "http://" s || String.prefix "https://" s;
  Number_of_string s := digits_value 0 s |}.

(** ** worker/schemas/user.ts: the fields of a user the worker reads *)

Module User.
Record t := {
  id : string;
  name : option string;
  email : string;
  emailVerified : bool;
  role : option string }.
End User.

(** ** String operations of the JavaScript runtime used by the code *)

Module Str.

(** [s.includes(sub)] *)
Fixpoint includes (s sub : string) : bool :=
  String.prefix sub s ||
  match s with
  | EmptyString => false
  | String _ r => includes r sub
  end.

(** [s.startsWith(sub)] *)
Definition startsWith (s sub : string) : bool := String.prefix sub s.

(** [s.endsWith(sub)] *)
Definition endsWith (s sub : string) : bool :=
  (String.length sub <=? String.length s)%nat &&
  String.eqb sub
    (String.substring (String.length s - String.length sub)
                      (String.length sub) s).

(** [s.split(sep)] for a one-character separator. *)
Fixpoint split (sep : Ascii.ascii) (s : string) : list string :=
  match s with
  | EmptyString => [EmptyString]
  | String a r =>
      if Ascii.eqb a sep then EmptyString :: split sep r
      else match split sep r with
           | h :: t => String a h :: t
           | [] => [String a EmptyString]
           end
  end.

(** [x || ''] for a possibly undefined string. *)
Definition or_empty (x : option string) : string := default "" x.

(** [arr.includes(x)] on an array of strings. *)
Definition mem (x : string) (l : list string) : bool :=
  existsb (String.eqb x) l.

Definition lower_ascii (a : Ascii.ascii) : Ascii.ascii :=
  let n := Ascii.nat_of_ascii a in
  if ((65 <=? n) && (n <=? 90))%nat then Ascii.ascii_of_nat (n + 32) else a.

(** [s.toLowerCase()], on the ASCII letters. *)
Fixpoint toLowerCase (s : string) : string :=
  match s with
  | EmptyString => EmptyString
  | String a r => String (lower_ascii a) (toLowerCase r)
  end.

End Str.

(** ** worker/lib/feature-flags.ts *)

Module Flags.

Inductive RuleType := T_user_id | T_email | T_role | T_email_domain.
Inductive Operator := Op_equals | Op_contains | Op_starts_with | Op_ends_with | Op_in.

(** [value: string | string[]] *)
Inductive RuleValue :=
  | One (s : string)
  | Many (l : list string).

Record UserRule := {
  type : RuleType;
  operator : Operator;
  value : RuleValue }.

Record FeatureFlag := {
  key : string;
  enabled : bool;
  description : option string;
  rolloutPercentage : option Z;
  userRules : option (list UserRule);
  environments : option (list string) }.

(** The manager's state: [private flags: Map<string, FeatureFlag>]. *)
Record FeatureFlags := { flags : gmap string FeatureFlag }.

Definition setFlag (flag : FeatureFlag) (ff : FeatureFlags) : FeatureFlags :=
  {| flags := <[key flag := flag]> (flags ff) |}.

Definition removeFlag (k : string) (ff : FeatureFlags) : FeatureFlags :=
  {| flags := delete k (flags ff) |}.

Definition getFlag (k : string) (ff : FeatureFlags) : option FeatureFlag :=
  flags ff !! k.

Definition loadFlags (fs : list FeatureFlag) (ff : FeatureFlags) : FeatureFlags :=
  fold_left (fun acc flag => setFlag flag acc) fs ff.

(** [constructor(_config: AppConfig, initialFlags: FeatureFlag[] = [])]:
    the configuration argument is received and not used. *)
Definition new (_config : Config.AppConfig) (initialFlags : list FeatureFlag)
  : FeatureFlags :=
  loadFlags initialFlags {| flags := ∅ |}.

Definition matchesValue (userValue : string) (op : Operator)
    (ruleValue : RuleValue) : bool :=
  match op with
  | Op_equals =>
      match ruleValue with One s => String.eqb userValue s | Many _ => false end
  | Op_contains =>
      match ruleValue with One s => Str.includes userValue s | Many _ => false end
  | Op_starts_with =>
      match ruleValue with One s => Str.startsWith userValue s | Many _ => false end
  | Op_ends_with =>
      match ruleValue with One s => Str.endsWith userValue s | Many _ => false end
  | Op_in =>
      match ruleValue with Many l => Str.mem userValue l | One _ => false end
  end.

Definition matchesUserRule (rule : UserRule) (user : User.t) : bool :=
  let userValue :=
    match type rule with
    | T_user_id => User.id user
    | T_email => User.email user
    | T_role => Str.or_empty (User.role user)
    | T_email_domain =>
        Str.or_empty (Str.split "@"%char (User.email user) !! 1%nat)
    end in
  matchesValue userValue (operator rule) (value rule).

(** [boolean | null]: [Some true] on the first matching rule, [None]
    (null) when no rule matches. *)
Fixpoint evaluateUserRules (rules : list UserRule) (user : User.t)
  : option bool :=
  match rules with
  | [] => None
  | rule :: rest =>
      if matchesUserRule rule user then Some true
      else evaluateUserRules rest user
  end.

(** ToInt32 on an integer. *)
Definition wrap32 (z : Z) : Z := (z + 2 ^ 31) mod 2 ^ 32 - 2 ^ 31.

(** One round of the loop body:
    [hash = (hash << 5) - hash + char; hash = hash & hash]. *)
Definition hash_step (hash : Z) (c : Ascii.ascii) : Z :=
  wrap32 (wrap32 (wrap32 hash * 32) - hash + Z.of_N (Ascii.N_of_ascii c)).

Fixpoint hash_loop (hash : Z) (seed : string) : Z :=
  match seed with
  | EmptyString => hash
  | String c r => hash_loop (hash_step hash c) r
  end.

Definition shouldRolloutToUser (flagKey : string) (user : option User.t)
    (percentage : Z) : bool :=
  if 100 <=? percentage then true
  else if percentage <=? 0 then false
  else
    let identifier :=
      match user with
      | Some u => if String.eqb (User.id u) "" then "anonymous" else User.id u
      | None => "anonymous"
      end in
    let seed := flagKey +:+ ":" +:+ identifier in
    let hash := hash_loop 0 seed in
    let userPercentage := Z.abs hash mod 100 in
    userPercentage <? percentage.

(** The tier the environment check compares against:
    [const currentEnv = 'development' // Will use actual env when integrated] *)
Definition currentEnv : string := "development".

Definition isEnabled (ff : FeatureFlags) (flagKey : string)
    (user : option User.t) : bool :=
  match flags ff !! flagKey with
  | None => false
  | Some flag =>
      if negb (enabled flag) then false
      else if
        match environments flag with
        | Some envs =>
            (0 <? length envs)%nat && negb (Str.mem currentEnv envs)
        | None => false
        end
      then false
      else
        match
          match user, userRules flag with
          | Some u, Some rules => evaluateUserRules rules u
          | _, _ => None
          end
        with
        | Some userRuleResult => userRuleResult
        | None =>
            match rolloutPercentage flag with
            | Some p => shouldRolloutToUser flagKey user p
            | None => enabled flag
            end
        end
  end.

Definition createDefaultFeatureFlags (config : Config.AppConfig)
  : list FeatureFlag :=
  [ {| key := "registration";
       enabled := Settings.registration (Config.features config);
       description := Some "Allow new user registration";
       rolloutPercentage := None; userRules := None; environments := None |};
    {| key := "oauth";
       enabled := Settings.oauth (Config.features config);
       description := Some "Enable OAuth authentication";
       rolloutPercentage := None; userRules := None; environments := None |};
    {| key := "maintenance_mode";
       enabled := Settings.maintenanceMode (Config.features config);
       description := Some "Site-wide maintenance mode";
       rolloutPercentage := None; userRules := None; environments := None |};
    {| key := "new_ui"; enabled := true;
       description := Some "Enable new user interface";
       rolloutPercentage := Some 10; userRules := None;
       environments := Some ["staging"; "production"] |};
    {| key := "admin_panel"; enabled := true;
       description := Some "Enable admin panel access";
       rolloutPercentage := None;
       userRules := Some [ {| type := T_role; operator := Op_equals;
                              value := One "admin" |} ];
       environments := None |};
    {| key := "beta_features"; enabled := true;
       description := Some "Enable beta features for internal users";
       rolloutPercentage := None;
       userRules := Some [ {| type := T_email_domain; operator := Op_equals;
                              value := One "yourcompany.com" |} ];
       environments := None |} ].

Definition createFeatureFlags (config : Config.AppConfig) : FeatureFlags :=
  new config (createDefaultFeatureFlags config).

End Flags.

(** ** worker/services/base.service.ts: the list-shaping helpers *)

Module Service.

(** The value of a field of an item ([Record<string, unknown>]),
    restricted to primitive values. *)
Inductive Prim : Type :=
  | PUndefined
  | PNull
  | PBool (b : bool)
  | PNum (n : Z)
  | PStr (s : string).

Abbreviation Item := (gmap string Prim).

(** [item[field]] *)
Definition get (item : Item) (field : string) : Prim :=
  default PUndefined (item !! field).

(** [ToNumber]; [None] is NaN. *)
Definition ToNumber `{Runtime} (v : Prim) : option Z :=
  match v with
  | PUndefined => None
  | PNull => Some 0
  | PBool b => Some (if b then 1 else 0)
  | PNum n => Some n
  | PStr s => Number_of_string s
  end.

(** [a < b]: code-unit order on two strings, numeric order otherwise,
    false as soon as one side is NaN. *)
Definition js_lt `{Runtime} (a b : Prim) : bool :=
  match a, b with
  | PStr x, PStr y => String.ltb x y
  | _, _ =>
      match ToNumber a, ToNumber b with
      | Some x, Some y => x <? y
      | _, _ => false
      end
  end.

(** [a > b] *)
Definition js_gt `{Runtime} (a b : Prim) : bool := js_lt b a.

(** [String(v)] *)
Definition String_of (v : Prim) : string :=
  match v with
  | PUndefined => "undefined"
  | PNull => "null"
  | PBool b => if b then "true" else "false"
  | PNum n => pretty n
  | PStr s => s
  end.

(** Arrays live in a heap and are passed by address, so that what a
    helper does to the caller's array is visible. *)
Definition Heap (U : Type) : Type := list (list U).

Definition alloc {U} (xs : list U) (h : Heap U) : nat * Heap U :=
  (length h, (h ++ [xs])%list).

(** A JavaScript number as [Math.ceil(total / limit)] can produce it. *)
Inductive Num : Type :=
  | Fin (z : Z)
  | PosInfinity
  | NaN.

(** [Math.ceil(total / limit)] for an array length [total]. *)
Definition ceil_div (total limit : Z) : Num :=
  if limit =? 0 then (if total =? 0 then NaN else PosInfinity)
  else Fin (- ((- total) / limit)).

(** The relative index computation of [Array.prototype.slice]. *)
Definition relative_index (k len : Z) : Z :=
  if k <? 0 then Z.max (len + k) 0 else Z.min k len.

(** [xs.slice(start, end)] *)
Definition slice {U} (xs : list U) (start stop : Z) : list U :=
  let len := Z.of_nat (length xs) in
  let from := relative_index start len in
  let to := relative_index stop len in
  take (Z.to_nat (to - from)) (drop (Z.to_nat from) xs).

Record Pagination := {
  page : Z;
  limit : Z;
  total : Z;
  pages : Num }.

Record PaginatedResult := {
  data : nat;               (* address of the array of the page *)
  pagination : Pagination }.

Definition applyPagination {U} (h : Heap U) (items : nat)
    (options_page options_limit : Z) : option (PaginatedResult * Heap U) :=
  xs ← h !! items;
  let total := Z.of_nat (length xs) in
  let pages := ceil_div total options_limit in
  let offset := (options_page - 1) * options_limit in
  let '(data, h') := alloc (slice xs offset (offset + options_limit)) h in
  Some ({| data := data;
           pagination := {| page := options_page; limit := options_limit;
                            total := total; pages := pages |} |}, h').

Inductive SortOrder := asc | desc.

(** The comparator passed to [sort]. *)
Definition comparator `{Runtime} (sortBy : string) (sortOrder : SortOrder)
    (a b : Item) : Z :=
  let aValue := get a sortBy in
  let bValue := get b sortBy in
  let comparison :=
    if js_gt aValue bValue then 1
    else if js_lt aValue bValue then -1 else 0 in
  match sortOrder with
  | asc => comparison
  | desc => - comparison
  end.

(** [Array.prototype.sort(cmp)], a stable sort: an element moves behind
    another one only if the comparator says it is greater.  (For a
    comparator that is not a consistent order, as with values that compare
    as NaN, an engine may leave the elements in another order; the array
    holds the same elements in any case.) *)
Fixpoint insert_sorted {U} (cmp : U -> U -> Z) (x : U) (l : list U) : list U :=
  match l with
  | [] => [x]
  | y :: l' => if 0 <? cmp x y then y :: insert_sorted cmp x l' else x :: l
  end.

Definition sort {U} (cmp : U -> U -> Z) (l : list U) : list U :=
  foldr (insert_sorted cmp) [] l.

(** [applySorting]: [items.sort(...)] sorts the array at [items] in
    place and evaluates to that same array; [sortOrder] is [None] when
    the caller leaves it out (default 'desc'). *)
Definition applySorting `{Runtime} (h : Heap Item) (items : nat)
    (sortBy : string) (sortOrder : option SortOrder)
  : option (nat * Heap Item) :=
  xs ← h !! items;
  let sortOrder := default desc sortOrder in
  Some (items, <[items := sort (comparator sortBy sortOrder) xs]> h).

Definition matches_term (term : string) (searchFields : list string)
    (item : Item) : bool :=
  existsb
    (fun field => Str.includes (Str.toLowerCase (String_of (get item field))) term)
    searchFields.

(** [applyTextSearch]: an empty term gives back the argument array
    itself, any other term a new array made by [filter]. *)
Definition applyTextSearch (h : Heap Item) (items : nat)
    (searchTerm : string) (searchFields : list string)
  : option (nat * Heap Item) :=
  xs ← h !! items;
  if String.eqb searchTerm "" then Some (items, h)
  else
    let term := Str.toLowerCase searchTerm in
    Some (alloc (List.filter (matches_term term searchFields) xs) h).

End Service.

(** ** worker/container/container.ts *)

(** What a token can resolve to: a primitive value, or an object known by
    its address (two objects are the same object when the addresses are
    equal). *)
Inductive Value : Type :=
  | VUndefined
  | VNull
  | VBool (b : bool)
  | VNum (n : Z)
  | VStr (s : string)
  | VObj (addr : nat).

#[export] Instance Value_eq_dec : EqDecision Value.
Proof. solve_decision. Defined.

Module Container.

(** The body of a service constructor, as the sequence of calls it makes
    on containers before it completes or throws.  A constructor receives
    the resolving container and may use every public method of it. *)
Inductive Body : Type :=
  | Done
  | Raise (e : Exn)
  | Resolve (c : nat) (token : string) (k : Value -> Body)
  | Has (c : nat) (token : string) (k : bool -> Body)
  | GetUser (c : nat) (k : option User.t -> Body)
  | Register (c : nat) (token : string) (ctor : nat -> Body)
             (singleton : option bool) (k : Body)
  | RegisterValue (c : nat) (token : string) (v : Value) (k : Body)
  | SetUser (c : nat) (u : User.t) (k : Body)
  | WithUser (c : nat) (u : User.t) (k : nat -> Body).

(** [ServiceConstructor]: a class, given by the body of its constructor
    as a function of the container argument, or the arrow function
    [() => value] that [registerValue] stores. *)
Inductive ServiceConstructor : Type :=
  | Class (body : nat -> Body)
  | ArrowFn (v : Value).

(** An entry of [ServiceRegistry]; an absent [instance] is [VUndefined]. *)
Record Registration := {
  constructor : ServiceConstructor;
  singleton : bool;
  instance : Value }.

Record ServiceContext := {
  env : RawEnvironment;
  container : nat;
  user : option User.t }.

(** A container object: the address of its registry object and its own
    context. *)
Record ContainerObj := {
  registry : nat;
  context : ServiceContext }.

(** The objects of the heap: registry objects (token to the address of a
    registration object), registration objects, containers, and the
    number of service instances created so far.  A registry object is
    modelled by its own properties: tokens that name a property every
    JavaScript object inherits ('__proto__', 'constructor', 'toString',
    ...) are not considered. *)
Record Store := {
  registries : list (gmap string nat);
  registrations : list Registration;
  containers : list ContainerObj;
  allocated : nat }.

Definition empty_store : Store :=
  {| registries := []; registrations := []; containers := []; allocated := 0 |}.

Inductive Outcome (A : Type) : Type :=
  | Returns (a : A) (s : Store)
  | Throws (e : Exn) (s : Store)
  | OutOfFuel
  | Dangling.          (* an address that is not in the store *)
Arguments Returns {A} a s.
Arguments Throws {A} e s.
Arguments OutOfFuel {A}.
Arguments Dangling {A}.

Definition bind {A B} (m : Outcome A) (f : A -> Store -> Outcome B) : Outcome B :=
  match m with
  | Returns a s => f a s
  | Throws e s => Throws e s
  | OutOfFuel => OutOfFuel
  | Dangling => Dangling
  end.

Definition set_registries (f : list (gmap string nat) -> list (gmap string nat))
    (s : Store) : Store :=
  {| registries := f (registries s); registrations := registrations s;
     containers := containers s; allocated := allocated s |}.

Definition set_registrations (f : list Registration -> list Registration)
    (s : Store) : Store :=
  {| registries := registries s; registrations := f (registrations s);
     containers := containers s; allocated := allocated s |}.

Definition set_containers (f : list ContainerObj -> list ContainerObj)
    (s : Store) : Store :=
  {| registries := registries s; registrations := registrations s;
     containers := f (containers s); allocated := allocated s |}.

(** Reserve the address of a new service instance. *)
Definition bump (s : Store) : Store :=
  {| registries := registries s; registrations := registrations s;
     containers := containers s; allocated := S (allocated s) |}.

(** [new Container(env, user)]: a fresh empty registry object and a
    context whose [container] field is the new container itself. *)
Definition new_Container (env0 : RawEnvironment) (user0 : option User.t)
    (s : Store) : nat * Store :=
  let g := length (registries s) in
  let c := length (containers s) in
  (c, set_containers
        (fun cs => (cs ++ [ {| registry := g;
                               context := {| env := env0; container := c;
                                             user := user0 |} |} ])%list)
        (set_registries (fun gs => (gs ++ [∅])%list) s)).

(** [withUser]: [newContainer.registry = this.registry]. *)
Definition withUser (c : nat) (u : User.t) (s : Store) : Outcome nat :=
  match containers s !! c with
  | None => Dangling
  | Some this =>
      let '(n, s1) := new_Container (env (context this)) (Some u) s in
      Returns n
        (set_containers
           (alter (fun co => {| registry := registry this;
                                context := context co |}) n) s1)
  end.

(** [setUser]: [this.context.user = user]. *)
Definition setUser (c : nat) (u : User.t) (s : Store) : Outcome unit :=
  match containers s !! c with
  | None => Dangling
  | Some this =>
      Returns tt
        (set_containers
           (<[c := {| registry := registry this;
                      context := {| env := env (context this);
                                    container := container (context this);
                                    user := Some u |} |}]>) s)
  end.

Definition getContext (c : nat) (s : Store) : Outcome ServiceContext :=
  match containers s !! c with
  | None => Dangling
  | Some this => Returns (context this) s
  end.

(** [this.registry[token] = registration] for a new registration object. *)
Definition store_registration (c : nat) (token : string)
    (registration : Registration) (s : Store) : Outcome unit :=
  match containers s !! c with
  | None => Dangling
  | Some this =>
      match registries s !! registry this with
      | None => Dangling
      | Some g =>
          let r := length (registrations s) in
          Returns tt
            (set_registries (<[registry this := <[token := r]> g]>)
               (set_registrations (fun rs => (rs ++ [registration])%list) s))
      end
  end.

(** [register(token, constructor, options = {})], with
    [singleton: options.singleton ?? true]. *)
Definition register (c : nat) (token : string) (ctor : ServiceConstructor)
    (options_singleton : option bool) (s : Store) : Outcome unit :=
  store_registration c token
    {| constructor := ctor;
       singleton := default true options_singleton;
       instance := VUndefined |} s.

Definition registerValue (c : nat) (token : string) (v : Value) (s : Store)
  : Outcome unit :=
  store_registration c token
    {| constructor := ArrowFn v; singleton := true; instance := v |} s.

(** The registration object a token is bound to in the registry of a
    container. *)
Definition entry (s : Store) (c : nat) (token : string) : option nat :=
  this ← containers s !! c;
  g ← registries s !! registry this;
  g !! token.

(** The container and its registry object are in the store. *)
Definition live (s : Store) (c : nat) : Prop :=
  exists this g, containers s !! c = Some this /\
                 registries s !! registry this = Some g.

(** [has]: [token in this.registry]. *)
Definition has (c : nat) (token : string) (s : Store) : Outcome bool :=
  match containers s !! c with
  | None => Dangling
  | Some this =>
      match registries s !! registry this with
      | None => Dangling
      | Some g => Returns (bool_decide (is_Some (g !! token))) s
      end
  end.

Definition is_undefined (v : Value) : bool :=
  match v with VUndefined => true | _ => false end.

(** [registration.instance = instance] on the registration object [r]. *)
Definition set_instance (r : nat) (v : Value) (s : Store) : Store :=
  set_registrations
    (alter (fun reg => {| constructor := constructor reg;
                          singleton := singleton reg;
                          instance := v |}) r) s.

(** [new ctor(container)]: an arrow function is not a constructor; a
    class gets a new object and runs its constructor body. *)
Definition construct_with (runb : Body -> Store -> Outcome unit)
    (ctor : ServiceConstructor) (c : nat) (s : Store) : Outcome Value :=
  match ctor with
  | ArrowFn _ => Throws NotAConstructor s
  | Class body =>
      let this := VObj (allocated s) in
      bind (runb (body c) (bump s)) (fun _ s' => Returns this s')
  end.

(** [resolve(token)], given how constructor bodies run. *)
Definition resolve_with (runb : Body -> Store -> Outcome unit)
    (c : nat) (token : string) (s : Store) : Outcome Value :=
  match containers s !! c with
  | None => Dangling
  | Some this =>
      match registries s !! registry this with
      | None => Dangling
      | Some g =>
          match g !! token with
          | None => Throws (ServiceNotRegistered token) s
          | Some r =>
              match registrations s !! r with
              | None => Dangling
              | Some registration =>
                  if singleton registration
                     && negb (is_undefined (instance registration))
                  then Returns (instance registration) s
                  else if negb (is_undefined (instance registration))
                  then Returns (instance registration) s
                  else
                    bind (construct_with runb (constructor registration) c s)
                      (fun inst s' =>
                         match registrations s' !! r with
                         | None => Dangling
                         | Some registration' =>
                             if singleton registration'
                             then Returns inst (set_instance r inst s')
                             else Returns inst s'
                         end)
              end
          end
      end
  end.

(** Running a constructor body; each call it makes costs one unit of
    fuel. *)
Fixpoint run (fuel : nat) (b : Body) (s : Store) : Outcome unit :=
  match fuel with
  | O => OutOfFuel
  | S fuel =>
      match b with
      | Done => Returns tt s
      | Raise e => Throws e s
      | Resolve c token k =>
          bind (resolve_with (run fuel) c token s) (fun v s' => run fuel (k v) s')
      | Has c token k =>
          bind (has c token s) (fun b s' => run fuel (k b) s')
      | GetUser c k =>
          bind (getContext c s) (fun ctx s' => run fuel (k (user ctx)) s')
      | Register c token ctor o k =>
          bind (register c token (Class ctor) o s) (fun _ s' => run fuel k s')
      | RegisterValue c token v k =>
          bind (registerValue c token v s) (fun _ s' => run fuel k s')
      | SetUser c u k =>
          bind (setUser c u s) (fun _ s' => run fuel k s')
      | WithUser c u k =>
          bind (withUser c u s) (fun n s' => run fuel (k n) s')
      end
  end.

Definition resolve (fuel : nat) (c : nat) (token : string) (s : Store)
  : Outcome Value :=
  resolve_with (run fuel) c token s.

(** [withUser] called once per user of a list, on the same container. *)
Fixpoint derive_many (c : nat) (us : list User.t) (s : Store)
  : Outcome (list nat) :=
  match us with
  | [] => Returns [] s
  | u :: us' =>
      bind (withUser c u s) (fun d s' =>
        bind (derive_many c us' s') (fun ds s'' => Returns (d :: ds) s''))
  end.

(** The constructor of [BaseService], which every business service
    runs: it reads the context and resolves the database, the
    configuration and the feature flags from the container. *)
Definition BaseService (c : nat) : Body :=
  Resolve c "database" (fun _ =>
  Resolve c "config" (fun _ =>
  Resolve c "featureFlags" (fun _ =>
  GetUser c (fun _ => Done)))).

(** [createContainer] of container/registry.ts, for a configuration
    object, a feature-flag manager and a database handle that already
    exist. *)
Definition createContainer (env0 : RawEnvironment)
    (config featureFlags database : Value) (s : Store) : Outcome nat :=
  let '(c, s) := new_Container env0 None s in
  bind (registerValue c "config" config s) (fun _ s =>
  bind (registerValue c "featureFlags" featureFlags s) (fun _ s =>
  bind (registerValue c "database" database s) (fun _ s =>
  bind (register c "userService" (Class BaseService) (Some true) s) (fun _ s =>
  Returns c s)))).

End Container.

(** ** Auxiliary definitions and concrete inputs *)

(** The result of [EnvironmentSchema.parse({})]: every field at its
    default. *)
Definition all_defaults : Env.Environment :=
  Env.Build_Environment None None development None None None None None None
    None None None None None None None None None None None None.

(** [{ ...e, BETTER_AUTH_SECRET: s }] *)
Definition with_secret (s : option string) (e : Env.Environment) : Env.Environment :=
  let 'Env.Build_Environment a b c d _ f g h i j k l m n o p q r t u v := e in
  Env.Build_Environment a b c d s f g h i j k l m n o p q r t u v.

(** The settings bundle of a tier. *)
Definition bundle (t : Tier) : Settings.AppSettings :=
  Settings.getAppSettings (Some (tier_name t)).

(** The tier a composed configuration reports, [config.app.environment]. *)
Definition tier_of (c : Config.AppConfig) : Tier :=
  Settings.environment (Config.app c).

Definition env_staging : RawEnvironment :=
  {[ "NODE_ENV" := RStr "staging" ]}.


Definition env_short_secret : RawEnvironment :=
  {[ "BETTER_AUTH_SECRET" := RStr "too-short" ]}.

Definition env_dev_short_secret : RawEnvironment :=
  <[ "NODE_ENV" := RStr "development" ]> env_short_secret.

Definition secret32 : string := "0123456789abcdef0123456789abcdef".

Definition env_production : RawEnvironment :=
  {[ "NODE_ENV" := RStr "production" ]}.

Definition env_production_secret : RawEnvironment :=
  <[ "BETTER_AUTH_SECRET" := RStr secret32 ]> env_production.

(** The parsed environment of [env_production_secret] and the
    configuration composed from it. *)
Definition production_environment : Env.Environment :=
  with_secret (Some secret32)
    (Env.Build_Environment None None production None None None None None None
       None None None None None None None None None None None None).

Definition production_config : Config.AppConfig :=
  Config.compose production_environment Settings.productionSettings.

(** A flag restricted to the development tier. *)
Definition flag_dev_only : Flags.FeatureFlag :=
  {| Flags.key := "dev_tools"; Flags.enabled := true;
     Flags.description := None; Flags.rolloutPercentage := None;
     Flags.userRules := None;
     Flags.environments := Some ["development"] |}.

Definition plain_user : User.t :=
  {| User.id := "user_1"; User.name := None;
     User.email := "jo@example.com"; User.emailVerified := true;
     User.role := Some "user" |}.

Definition item_k (n : Z) : Service.Item := {[ "k" := Service.PNum n ]}.

Definition heap_12 : Service.Heap Service.Item := [ [item_k 1; item_k 2] ].

(** ** What running code keeps of the registrations *)

(** A registration object keeps its constructor and its singleton flag;
    the instance of a non-singleton registration is never assigned. *)
Definition reg_kept (reg reg' : Container.Registration) : Prop :=
  Container.constructor reg' = Container.constructor reg /\
  Container.singleton reg' = Container.singleton reg /\
  (Container.singleton reg = false ->
   Container.instance reg' = Container.instance reg).

(** Instances are only ever added and registration objects stay where
    they are. *)
Definition Preserved (s s' : Container.Store) : Prop :=
  (Container.allocated s <= Container.allocated s')%nat /\
  forall r reg, Container.registrations s !! r = Some reg ->
    exists reg', Container.registrations s' !! r = Some reg' /\ reg_kept reg reg'.

Definition outcome_preserved {A} (s : Container.Store)
    (o : Container.Outcome A) : Prop :=
  match o with
  | Container.Returns _ s' | Container.Throws _ s' => Preserved s s'
  | _ => True
  end.

(** The store an outcome leaves. *)
Definition the_store {A} (o : Container.Outcome A) : Container.Store :=
  match o with
  | Container.Returns _ s | Container.Throws _ s => s
  | _ => Container.empty_store
  end.

(** A store with one container (at address 0) and nothing registered. *)
Definition store_fresh : Container.Store :=
  (Container.new_Container ∅ None Container.empty_store).2.

(** The same container after the three [registerValue] calls of
    [createContainer]; the configuration and the feature-flag manager are
    objects created outside the container, the database handle is null. *)
Definition store_values : Container.Store :=
  the_store
    (Container.bind (Container.registerValue 0 "config" (VObj 100) store_fresh)
       (fun _ s =>
     Container.bind (Container.registerValue 0 "featureFlags" (VObj 101) s)
       (fun _ s => Container.registerValue 0 "database" VNull s))).












Definition store_undefined_value : Container.Store :=
  the_store (Container.registerValue 0 "value" VUndefined store_fresh).

(** The values of the field [k] of the items of the array at [r]. *)
Definition keys_at (h : Service.Heap Service.Item) (r : nat)
  : option (list Service.Prim) :=
  map (fun it : Service.Item => Service.get it "k") <$> (h !! r).

(** ** Further definitions: configuration *)

(** The keys [EnvironmentSchema] declares. *)
Definition schema_keys : list string :=
  [ "DB"; "KV"; "NODE_ENV"; "DATABASE_URL"; "BETTER_AUTH_SECRET";
    "BETTER_AUTH_URL"; "GITHUB_CLIENT_ID"; "GITHUB_CLIENT_SECRET";
    "GOOGLE_CLIENT_ID"; "GOOGLE_CLIENT_SECRET"; "SMTP_HOST"; "SMTP_PORT";
    "SMTP_USER"; "SMTP_PASS"; "API_KEY"; "WEBHOOK_SECRET"; "REDIS_URL";
    "SENTRY_DSN"; "CLOUDFLARE_ACCOUNT_ID"; "CLOUDFLARE_DATABASE_ID";
    "CLOUDFLARE_D1_TOKEN" ].

Module Merge.

(** [Partial<AppSettings>]: each group is there or not; a group that is
    there has every field its type requires, and may leave out the
    optional ones ([auth.allowedDomains], [email.replyTo]). *)
Record Overrides := {
  app : option Settings.App;
  database : option Settings.Database;
  auth : option Settings.Auth;
  features : option Settings.Features;
  rateLimit : option Settings.RateLimit;
  logging : option Settings.Logging;
  email : option Settings.Email;
  performance : option Settings.Performance;
  security : option Settings.Security;
  api : option Settings.Api }.

(** [{}] *)
Definition no_overrides : Overrides :=
  {| app := None; database := None; auth := None; features := None;
     rateLimit := None; logging := None; email := None;
     performance := None; security := None; api := None |}.

(** [{ ...base, ...over }] for a group whose fields are all required. *)
Definition spread {A} (base : A) (over : option A) : A := default base over.

(** [{ ...base, ...over }] on an optional field: the field of [over] when
    it has one, that of [base] otherwise. *)
Definition spread_field {A} (base over : option A) : option A :=
  match over with
  | Some x => Some x
  | None => base
  end.

(** [{ ...baseSettings.auth, ...overrides.auth }] *)
Definition merge_auth (base : Settings.Auth) (over : option Settings.Auth)
  : Settings.Auth :=
  match over with
  | None => base
  | Some a =>
      {| Settings.sessionDuration := Settings.sessionDuration a;
         Settings.tokenExpiry := Settings.tokenExpiry a;
         Settings.requireEmailVerification := Settings.requireEmailVerification a;
         Settings.allowedDomains :=
           spread_field (Settings.allowedDomains base) (Settings.allowedDomains a) |}
  end.

(** The email group: the spread of the two groups, then [templates] as the
    spread of the two template records. *)
Definition merge_email (base : Settings.Email) (over : option Settings.Email)
  : Settings.Email :=
  match over with
  | None => base
  | Some e =>
      {| Settings.from := Settings.from e;
         Settings.replyTo :=
           spread_field (Settings.replyTo base) (Settings.replyTo e);
         Settings.templates := spread (Settings.templates base)
                                      (Some (Settings.templates e)) |}
  end.

(** The api group: [openapi] spread field by field, [contact] and
    [license] spread, [servers] and [tags] taken from the override with
    [||] (an array is truthy, also when empty). *)
Definition merge_api (base : Settings.Api) (over : option Settings.Api)
  : Settings.Api :=
  match over with
  | None => base
  | Some a =>
      let b := Settings.openapi base in
      let o := Settings.openapi a in
      {| Settings.openapi :=
           {| Settings.openapi_version := Settings.openapi_version o;
              Settings.title := Settings.title o;
              Settings.description := Settings.description o;
              Settings.contact := spread (Settings.contact b) (Some (Settings.contact o));
              Settings.license := spread (Settings.license b) (Some (Settings.license o));
              Settings.servers := Settings.servers o;
              Settings.tags := Settings.tags o |} |}
  end.

Definition mergeSettings (baseSettings : Settings.AppSettings)
    (overrides : Overrides) : Settings.AppSettings :=
  {| Settings.app := spread (Settings.app baseSettings) (app overrides);
     Settings.database := spread (Settings.database baseSettings) (database overrides);
     Settings.auth := merge_auth (Settings.auth baseSettings) (auth overrides);
     Settings.features := spread (Settings.features baseSettings) (features overrides);
     Settings.rateLimit := spread (Settings.rateLimit baseSettings) (rateLimit overrides);
     Settings.logging := spread (Settings.logging baseSettings) (logging overrides);
     Settings.email := merge_email (Settings.email baseSettings) (email overrides);
     Settings.performance :=
       spread (Settings.performance baseSettings) (performance overrides);
     Settings.security := spread (Settings.security baseSettings) (security overrides);
     Settings.api := merge_api (Settings.api baseSettings) (api overrides) |}.

End Merge.

(** Overrides that replace the auth group by one without allowed domains. *)
Definition overrides_auth_plain : Merge.Overrides :=
  {| Merge.app := None; Merge.database := None;
     Merge.auth := Some {| Settings.sessionDuration := 1000;
                           Settings.tokenExpiry := 1000;
                           Settings.requireEmailVerification := true;
                           Settings.allowedDomains := None |};
     Merge.features := None; Merge.rateLimit := None; Merge.logging := None;
     Merge.email := None; Merge.performance := None; Merge.security := None;
     Merge.api := None |}.

Definition env_staging_smtp : RawEnvironment :=
  <[ "SMTP_PORT" := RStr "587" ]>
    (<[ "SMTP_USER" := RStr "mailer" ]> env_staging).

Definition env_staging_extra : RawEnvironment :=
  <[ "PATH" := RStr "/usr/bin" ]> env_staging.

(** ** Further definitions: feature flags *)

(** The environment check of [isEnabled] lets the flag through: no
    environments list, an empty one, or one that has 'development'. *)
Definition environments_pass (flag : Flags.FeatureFlag) : Prop :=
  match Flags.environments flag with
  | None => True
  | Some envs => envs = [] \/ Str.mem Flags.currentEnv envs = true
  end.


(** The character does not occur in the string. *)
Fixpoint lacks (c : Ascii.ascii) (s : string) : Prop :=
  match s with
  | EmptyString => True
  | String a r => a <> c /\ lacks c r
  end.

Definition flag_beta_rollout0 : Flags.FeatureFlag :=
  {| Flags.key := "beta"; Flags.enabled := true; Flags.description := None;
     Flags.rolloutPercentage := Some 0;
     Flags.userRules :=
       Some [ {| Flags.type := Flags.T_email_domain;
                 Flags.operator := Flags.Op_equals;
                 Flags.value := Flags.One "example.com" |} ];
     Flags.environments := None |}.

Definition flag_half : Flags.FeatureFlag :=
  {| Flags.key := "half"; Flags.enabled := true; Flags.description := None;
     Flags.rolloutPercentage := Some 50; Flags.userRules := None;
     Flags.environments := Some ["development"] |}.

Definition flag_half_off : Flags.FeatureFlag :=
  {| Flags.key := "half"; Flags.enabled := false; Flags.description := None;
     Flags.rolloutPercentage := Some 100; Flags.userRules := None;
     Flags.environments := None |}.

Definition anonymous_named_user : User.t :=
  {| User.id := "anonymous"; User.name := None;
     User.email := "a@example.com"; User.emailVerified := false;
     User.role := None |}.

Definition rule_domain (op : Flags.Operator) (v : Flags.RuleValue)
  : Flags.UserRule :=
  {| Flags.type := Flags.T_email_domain; Flags.operator := op;
     Flags.value := v |}.

(** ** Further definitions: list-shaping helpers *)

(** What a caller of the helpers gets for an array holding [xs]: the
    items of the page, the page count, the items of the array after
    sorting, the items found by a search. *)
Definition page_items {U} (xs : list U) (page limit : Z) : list U :=
  match Service.applyPagination [xs] 0 page limit with
  | Some (res, h') => default [] (h' !! Service.data res)
  | None => []
  end.

Definition page_count {U} (xs : list U) (page limit : Z) : Service.Num :=
  match Service.applyPagination [xs] 0 page limit with
  | Some (res, _) => Service.pages (Service.pagination res)
  | None => Service.NaN
  end.

Definition sorted_items `{Runtime} (xs : list Service.Item) (sortBy : string)
    (sortOrder : option Service.SortOrder) : list Service.Item :=
  match Service.applySorting [xs] 0 sortBy sortOrder with
  | Some (r, h') => default [] (h' !! r)
  | None => []
  end.

Definition found_items (xs : list Service.Item) (searchTerm : string)
    (searchFields : list string) : list Service.Item :=
  match Service.applyTextSearch [xs] 0 searchTerm searchFields with
  | Some (r, h') => default [] (h' !! r)
  | None => []
  end.

(** The pages 1 to [n] of an array, one after the other. *)
Definition all_pages {U} (xs : list U) (limit : Z) (n : nat) : list U :=
  concat (map (fun i => page_items xs (Z.of_nat (S i)) limit) (seq 0 n)).

(** The number under the sort key, for items whose key is a number. *)
Definition num_key (sortBy : string) (item : Service.Item) : Z :=
  match Service.get item sortBy with
  | Service.PNum n => n
  | _ => 0
  end.

Definition has_num_key (sortBy : string) (item : Service.Item) : Prop :=
  exists n, Service.get item sortBy = Service.PNum n.

(** Each number is at most every later one. *)
Fixpoint ascending (l : list Z) : Prop :=
  match l with
  | [] => True
  | x :: r => Forall (Z.le x) r /\ ascending r
  end.

Definition item_kn (k n : Z) : Service.Item :=
  {[ "k" := Service.PNum k; "n" := Service.PNum n ]}.

Definition item_name (s : string) : Service.Item :=
  {[ "name" := Service.PStr s ]}.

(** ** Further definitions: registry helpers, base service, auth middleware *)

(** container/registry.ts: the typed resolution helpers. *)
Module Registry.

Definition getUserService (fuel : nat) (c : nat) (s : Container.Store)
  : Container.Outcome Value :=
  Container.resolve fuel c "userService" s.

Definition getDatabase (fuel : nat) (c : nat) (s : Container.Store)
  : Container.Outcome Value :=
  Container.resolve fuel c "database" s.

Definition getConfig (fuel : nat) (c : nat) (s : Container.Store)
  : Container.Outcome Value :=
  Container.resolve fuel c "config" s.

Definition getFeatureFlags (fuel : nat) (c : nat) (s : Container.Store)
  : Container.Outcome Value :=
  Container.resolve fuel c "featureFlags" s.

End Registry.

(** services/base.service.ts: what the methods of a service read, and the
    methods that guard on it. *)
Module Base.

(** The fields of a service instance the guards use. *)
Record t := {
  featureFlags : Flags.FeatureFlags;
  currentUser : option User.t }.

Inductive Failure : Type :=
  | UserAuthenticationRequired          (* 'User authentication required' *)
  | RoleRequired (role : string)        (* `Role '${role}' required` *)
  | FeatureNotEnabled (key : string).   (* `Feature '${key}' is not enabled` *)

(** [this.currentUser = context?.user]: the user of the container the
    service was constructed with. *)
Definition of_context (ff : Flags.FeatureFlags) (ctx : Container.ServiceContext)
  : t :=
  {| featureFlags := ff; currentUser := Container.user ctx |}.

Definition requireUser (b : t) : Failure + User.t :=
  match currentUser b with
  | None => inl UserAuthenticationRequired
  | Some u => inr u
  end.

(** [x === role] for an optional role [x]. *)
Definition role_is (x : option string) (role : string) : bool :=
  match x with
  | Some r => String.eqb r role
  | None => false
  end.

Definition hasRole (b : t) (role : string) : bool :=
  match currentUser b with
  | Some u => role_is (User.role u) role
  | None => false
  end.

Definition requireRole (b : t) (role : string) : Failure + unit :=
  match requireUser b with
  | inl f => inl f
  | inr user =>
      if negb (role_is (User.role user) role) then inl (RoleRequired role)
      else inr tt
  end.

Definition isFeatureEnabled (b : t) (key : string) : bool :=
  Flags.isEnabled (featureFlags b) key (currentUser b).

Definition requireFeature (b : t) (key : string) : Failure + unit :=
  if negb (isFeatureEnabled b key) then inl (FeatureNotEnabled key)
  else inr tt.

End Base.

(** middleware/auth.ts *)
Module Auth.

(** What a middleware does with a request: hand it on, or answer with an
    'unauthorized' or a 'forbidden' error. *)
Inductive Verdict : Type :=
  | Next
  | Unauthorized (msg : string)
  | Forbidden (msg : string).

(** [!user.role] *)
Definition no_role (u : User.t) : bool :=
  match User.role u with
  | None => true
  | Some r => String.eqb r ""
  end.

(** [requireRole(requiredRole)] on the user of the request context. *)
Definition requireRole (requiredRole : string) (user : option User.t) : Verdict :=
  match user with
  | None => Unauthorized "Authentication required"
  | Some u =>
      if no_role u || negb (Base.role_is (User.role u) requiredRole)
      then Forbidden ("Role '" +:+ requiredRole +:+ "' required")
      else Next
  end.

(** [requireAnyRole(allowedRoles)] *)
Definition requireAnyRole (allowedRoles : list string) (user : option User.t)
  : Verdict :=
  match user with
  | None => Unauthorized "Authentication required"
  | Some u =>
      if no_role u || negb (Str.mem (Str.or_empty (User.role u)) allowedRoles)
      then Forbidden ("One of these roles required: "
                      +:+ String.concat ", " allowedRoles)
      else Next
  end.

(** The user of a session as the session library reports it. *)
Record SessionUser := {
  id : string;
  email : string;
  name : option string;
  emailVerified : option bool }.

(** The conversion in [validateSession]: [name || undefined],
    [emailVerified || false], and no role. *)
Definition toUser (su : SessionUser) : User.t :=
  {| User.id := id su;
     User.name := match name su with
                  | Some n => if String.eqb n "" then None else Some n
                  | None => None
                  end;
     User.email := email su;
     User.emailVerified := default false (emailVerified su);
     User.role := None |}.

(** [!!v] *)
Definition truthy (v : Value) : bool :=
  match v with
  | VUndefined | VNull => false
  | VBool b => b
  | VNum n => negb (n =? 0)
  | VStr s => negb (String.eqb s "")
  | VObj _ => true
  end.

(** What [authMiddleware] does up to the call of [next]: the outcome of
    the session validation, which depends on the request and on the
    session library, is the argument [session].  [Proceed] carries the
    store [next] is called in.  An exception that comes out of a service
    constructor is taken to be no [UnauthorizedError] (only this
    middleware and the role guards throw one), so it is answered with
    'Authentication failed'. *)
Inductive Outcome : Type :=
  | Proceed (s : Container.Store)
  | Reject (msg : string) (s : Container.Store)
  | Undefined.

Definition authMiddleware (fuel : nat) (c : nat) (session : option SessionUser)
    (s : Container.Store) : Outcome :=
  match Container.getContext c s with
  | Container.Returns _ _ =>
      match Registry.getDatabase fuel c s with
      | Container.Returns db s1 =>
          if negb (truthy db)
          then Reject "Authentication service unavailable" s1
          else
            match session with
            | None => Reject "Invalid or expired session" s1
            | Some su =>
                match Container.setUser c (toUser su) s1 with
                | Container.Returns _ s2 => Proceed s2
                | Container.Throws _ s2 => Reject "Authentication failed" s2
                | _ => Undefined
                end
            end
      | Container.Throws _ s1 => Reject "Authentication failed" s1
      | _ => Undefined
      end
  | _ => Undefined
  end.

(** [optionalAuthMiddleware] up to the call of [next]: the store [next]
    is called in, and the container put in the request context, if any. *)
Definition optionalAuthMiddleware (fuel : nat) (c : nat)
    (session : option SessionUser) (s : Container.Store)
  : option (option nat * Container.Store) :=
  match Container.getContext c s with
  | Container.Returns _ _ =>
      match Registry.getDatabase fuel c s with
      | Container.Returns db s1 =>
          if truthy db then
            match session with
            | None => Some (None, s1)
            | Some su =>
                match Container.withUser c (toUser su) s1 with
                | Container.Returns d s2 => Some (Some d, s2)
                | Container.Throws _ s2 => Some (None, s2)
                | _ => None
                end
            end
          else Some (None, s1)
      | Container.Throws _ s1 => Some (None, s1)
      | _ => None
      end
  | _ => None
  end.

End Auth.

(** Every token a registry binds stays bound, and every container keeps
    its registry object. *)
Definition Grows (s s' : Container.Store) : Prop :=
  (forall c co, Container.containers s !! c = Some co ->
     exists co', Container.containers s' !! c = Some co' /\
                 Container.registry co' = Container.registry co) /\
  (forall g m, Container.registries s !! g = Some m ->
     exists m', Container.registries s' !! g = Some m' /\
                forall token, is_Some (m !! token) -> is_Some (m' !! token)).

Definition outcome_grows {A} (s : Container.Store) (o : Container.Outcome A)
  : Prop :=
  match o with
  | Container.Returns _ s' | Container.Throws _ s' => Grows s s'
  | _ => True
  end.

(** A service whose constructor fails. *)
Definition ctor_failing : Container.ServiceConstructor :=
  Container.Class (fun _ => Container.Raise (ServiceError "no connection")).

Definition store_failing : Container.Store :=
  the_store (Container.register 0 "mailer" ctor_failing None store_fresh).

(** A container with the user service registered and no database. *)
Definition store_no_database : Container.Store :=
  the_store (Container.register 0 "userService"
               (Container.Class Container.BaseService) None store_fresh).

Definition session_jo : Auth.SessionUser :=
  {| Auth.id := "user_1"; Auth.email := "jo@example.com";
     Auth.name := Some "Jo"; Auth.emailVerified := Some true |}.

Definition admin_user : User.t :=
  {| User.id := "user_2"; User.name := None;
     User.email := "root@example.com"; User.emailVerified := true;
     User.role := Some "admin" |}.


(** A container whose database handle is an object. *)
Definition store_database : Container.Store :=
  the_store (Container.registerValue 0 "database" (VObj 102) store_fresh).

Definition no_flags : Flags.FeatureFlags := {| Flags.flags := ∅ |}.
(** * Properties *)

(** ** Configuration *)

Lemma parse_empty `{Runtime} : Env.EnvironmentSchema_parse ∅ = Some all_defaults.
Proof. reflexivity. Qed.

(** How the fields of a parsed environment relate to the raw input. *)
Lemma parse_inv `{Runtime} env e :
  Env.EnvironmentSchema_parse env = Some e ->
  Env.z_default Env.z_enum_tier development (env !! "NODE_ENV")
    = Some (Env.NODE_ENV e) /\
  Env.z_optional (Env.z_string_min 32) (env !! "BETTER_AUTH_SECRET")
    = Some (Env.BETTER_AUTH_SECRET e) /\
  Env.z_optional Env.z_string (env !! "DATABASE_URL")
    = Some (Env.DATABASE_URL e).
Proof.
  unfold Env.EnvironmentSchema_parse. intros Hp.
  repeat match type of Hp with
  | (?m ≫= _) = Some _ => destruct m eqn:?; simpl in Hp; [|discriminate]
  end.
  injection Hp as <-. simpl. auto.
Qed.

Lemma z_secret_ok s :
  (32 <= String.length s)%nat ->
  Env.z_optional (Env.z_string_min 32) (Some (RStr s)) = Some (Some s).
Proof.
  intros Hlen. unfold Env.z_optional, Env.z_string_min.
  cbn [Env.z_string mbind option_bind].
  destruct (Nat.leb_spec 32 (String.length s)); [reflexivity|lia].
Qed.

Lemma z_secret_short s :
  (String.length s < 32)%nat ->
  Env.z_optional (Env.z_string_min 32) (Some (RStr s)) = None.
Proof.
  intros Hlen. unfold Env.z_optional, Env.z_string_min.
  cbn [Env.z_string mbind option_bind].
  destruct (Nat.leb_spec 32 (String.length s)); [lia|reflexivity].
Qed.

(** A secret the schema rejects makes the whole parse fail. *)
Lemma parse_short_secret `{Runtime} env s :
  env !! "BETTER_AUTH_SECRET" = Some (RStr s) ->
  (String.length s < 32)%nat ->
  Env.EnvironmentSchema_parse env = None.
Proof.
  intros Hs Hlen.
  destruct (Env.EnvironmentSchema_parse env) as [e|] eqn:Hp; [|reflexivity].
  apply parse_inv in Hp as (_ & Hsec & _).
  rewrite Hs, (z_secret_short s Hlen) in Hsec. discriminate.
Qed.

(** The schema reads each key on its own: an environment that is valid
    without its secret is valid with a secret of 32 characters or more. *)
Lemma parse_with_secret `{Runtime} env e0 s :
  Env.EnvironmentSchema_parse (delete "BETTER_AUTH_SECRET" env) = Some e0 ->
  env !! "BETTER_AUTH_SECRET" = Some (RStr s) ->
  (32 <= String.length s)%nat ->
  Env.EnvironmentSchema_parse env = Some (with_secret (Some s) e0).
Proof.
  unfold Env.EnvironmentSchema_parse. intros Hp Hs Hlen.
  rewrite lookup_delete_eq in Hp.
  rewrite !lookup_delete_ne in Hp by done.
  rewrite Hs, (z_secret_ok s Hlen).
  repeat match type of Hp with
  | (?m ≫= _) = Some _ => destruct m eqn:?; simpl in Hp; [|discriminate]
  end.
  injection Hp as <-. reflexivity.
Qed.

Lemma tier_of_raw t x :
  Env.z_default Env.z_enum_tier development x = Some t ->
  x = Some (RStr "production") -> t = production.
Proof. intros Ht ->. vm_compute in Ht. congruence. Qed.

Lemma bundle_tier t : Settings.environment (Settings.app (bundle t)) = t.
Proof. destruct t; reflexivity. Qed.

(** A configuration that [createConfig] returns is the composition of the
    validated environment with the bundle of its tier. *)
Lemma createConfig_inv `{Runtime} env c :
  Config.createConfig env = Ok c ->
  exists e, Env.validateEnvironment env = Ok e /\
            c = Config.compose e (bundle (Env.NODE_ENV e)) /\
            tier_of c = Env.NODE_ENV e.
Proof.
  unfold Config.createConfig. intros Hc.
  destruct (Env.validateEnvironment env) as [e|x] eqn:Hv; [|discriminate].
  cbn [mbind Result_bind] in Hc.
  destruct (if decide (Env.NODE_ENV e = production)
            then Env.validateProductionEnvironment e else Ok tt); [|discriminate].
  injection Hc as <-. exists e. split; [reflexivity|]. split; [reflexivity|].
  apply bundle_tier.
Qed.

(** The two ways a failed parse ends, by the NODE_ENV of the raw input. *)
Lemma validateEnvironment_failure_development `{Runtime} env :
  Env.EnvironmentSchema_parse env = None ->
  env !! "NODE_ENV" = Some (RStr "development") ->
  Env.validateEnvironment env = Ok all_defaults.
Proof.
  intros Hp Ht. unfold Env.validateEnvironment. rewrite Hp, parse_empty.
  destruct (decide _); [reflexivity|contradiction].
Qed.

Lemma validateEnvironment_failure_other `{Runtime} env :
  Env.EnvironmentSchema_parse env = None ->
  env !! "NODE_ENV" <> Some (RStr "development") ->
  Env.validateEnvironment env = Throw EnvironmentValidationFailed.
Proof.
  intros Hp Ht. unfold Env.validateEnvironment. rewrite Hp.
  destruct (decide _); [contradiction|reflexivity].
Qed.

(** An exception of [validateEnvironment] leaves [createConfig]. *)
Lemma createConfig_validation_throws `{Runtime} env e :
  Env.validateEnvironment env = Throw e ->
  Config.createConfig env = Throw e.
Proof. intros Hv. unfold Config.createConfig. rewrite Hv. reflexivity. Qed.




(** C3, as stated, fails: with no NODE_ENV at all (the tier would default
    to development) an environment that fails validation makes
    [validateEnvironment], and so [createConfig], throw. *)
Lemma C3_absent_tier_throws :
  env_short_secret !! "NODE_ENV" = None /\
  Env.EnvironmentSchema_parse env_short_secret = None /\
  Env.validateEnvironment env_short_secret = Throw EnvironmentValidationFailed /\
  Config.createConfig env_short_secret = Throw EnvironmentValidationFailed.
Proof. vm_compute. repeat split. Qed.

(** C3 (amended): when schema validation fails, an environment whose
    NODE_ENV is the string 'development' is replaced by the all-defaults
    environment and [createConfig] returns the development configuration
    built from it; every other environment (another tier, an unknown tier,
    or no NODE_ENV) makes [validateEnvironment] and [createConfig] throw. *)
Theorem C3_validation_failure `{Runtime} env :
  Env.EnvironmentSchema_parse env = None ->
  (env !! "NODE_ENV" = Some (RStr "development") ->
     Env.validateEnvironment env = Ok all_defaults /\
     Config.createConfig env
       = Ok (Config.compose all_defaults Settings.developmentSettings)) /\
  (env !! "NODE_ENV" <> Some (RStr "development") ->
     Env.validateEnvironment env = Throw EnvironmentValidationFailed /\
     Config.createConfig env = Throw EnvironmentValidationFailed).
Proof.
  intros Hp. split; intros Ht.
  - pose proof (validateEnvironment_failure_development env Hp Ht) as Hv.
    split; [assumption|].
    unfold Config.createConfig. rewrite Hv. reflexivity.
  - pose proof (validateEnvironment_failure_other env Hp Ht) as Hv.
    split; [assumption|].
    by apply createConfig_validation_throws.
Qed.

Lemma C3_validation_failure_witness :
  Env.validateEnvironment env_dev_short_secret = Ok all_defaults /\
  Config.createConfig env_dev_short_secret
    = Ok (Config.compose all_defaults Settings.developmentSettings).
Proof.
  apply (C3_validation_failure env_dev_short_secret); reflexivity.
Defined.

(** C9: in the production tier [createConfig] throws when the auth secret
    is absent and when it is shorter than 32 characters; with a secret of
    at least 32 characters and an environment that is schema-valid apart
    from the secret, it returns a configuration. *)
Theorem C9_production_secret `{Runtime} env :
  env !! "NODE_ENV" = Some (RStr "production") ->
  (env !! "BETTER_AUTH_SECRET" = None ->
     throws (Config.createConfig env) /\
     (is_Some (Env.EnvironmentSchema_parse env) ->
      Config.createConfig env = Throw AuthSecretRequired)) /\
  (forall s, env !! "BETTER_AUTH_SECRET" = Some (RStr s) ->
             (String.length s < 32)%nat ->
             Config.createConfig env = Throw EnvironmentValidationFailed) /\
  (forall s, env !! "BETTER_AUTH_SECRET" = Some (RStr s) ->
             (32 <= String.length s)%nat ->
             is_Some (Env.EnvironmentSchema_parse (delete "BETTER_AUTH_SECRET" env)) ->
             exists c, Config.createConfig env = Ok c /\
                       tier_of c = production /\
                       Config.secret (Config.auth c) = Some s).
Proof.
  intros Ht.
  assert (Hdev : env !! "NODE_ENV" <> Some (RStr "development"))
    by (rewrite Ht; discriminate).
  split; [|split].
  - intros Hs.
    destruct (Env.EnvironmentSchema_parse env) as [e|] eqn:Hp.
    + assert (Hc : Config.createConfig env = Throw AuthSecretRequired).
      { unfold Config.createConfig, Env.validateEnvironment. rewrite Hp.
        cbn [mbind Result_bind].
        destruct (parse_inv _ _ Hp) as (Hn & Hsec & _).
        rewrite Hs in Hsec. injection Hsec as Hsec.
        apply tier_of_raw in Hn; [|assumption].
        unfold Env.validateProductionEnvironment. rewrite Hn, <- Hsec.
        reflexivity. }
      split; [by exists AuthSecretRequired|done].
    + split; [|by intros [? ?]].
      exists EnvironmentValidationFailed.
      apply createConfig_validation_throws.
      by apply validateEnvironment_failure_other.
  - intros s Hs Hlen.
    pose proof (parse_short_secret env s Hs Hlen) as Hp.
    apply createConfig_validation_throws.
    by apply validateEnvironment_failure_other.
  - intros s Hs Hlen [e0 Hp0].
    pose proof (parse_with_secret env e0 s Hp0 Hs Hlen) as Hp.
    destruct (parse_inv _ _ Hp) as (Hn & Hsec & _).
    apply tier_of_raw in Hn; [|assumption].
    rewrite Hs, (z_secret_ok s Hlen) in Hsec. injection Hsec as Hsec.
    exists (Config.compose (with_secret (Some s) e0) (bundle production)).
    unfold Config.createConfig, Env.validateEnvironment. rewrite Hp.
    cbn [mbind Result_bind]. rewrite Hn.
    unfold Env.validateProductionEnvironment. rewrite Hn, <- Hsec.
    assert (Hf : Env.falsy (Some s) = false).
    { destruct s; [simpl in Hlen; lia|reflexivity]. }
    rewrite Hf. change (default "" (Some s)) with s.
    destruct (Nat.ltb_spec (String.length s) 32); [lia|].
    split; [reflexivity|]. split; [reflexivity|].
    cbn [Config.compose Config.auth Config.secret]. symmetry. exact Hsec.
Qed.

Lemma C9_production_secret_witness :
  Config.createConfig env_production = Throw AuthSecretRequired /\
  exists c, Config.createConfig env_production_secret = Ok c /\
            tier_of c = production /\
            Config.secret (Config.auth c) = Some secret32.
Proof.
  split.
  - apply (C9_production_secret env_production);
      [reflexivity | reflexivity | vm_compute; eauto].
  - apply (C9_production_secret env_production_secret);
      [reflexivity | reflexivity | vm_compute; lia | vm_compute; eauto].
Defined.

(** ** Feature flags *)

(** The manager built by the constructor does not depend on the
    configuration it is given. *)
Lemma new_ignores_config config1 config2 initialFlags :
  Flags.new config1 initialFlags = Flags.new config2 initialFlags.
Proof. reflexivity. Qed.

(** What the environment check does: a flag with a non-empty environments
    list that lacks 'development' is off, whatever the running tier. *)
Lemma isEnabled_environments_without_development ff k flag envs user :
  Flags.flags ff !! k = Some flag ->
  Flags.environments flag = Some envs ->
  envs <> [] ->
  Str.mem "development" envs = false ->
  Flags.isEnabled ff k user = false.
Proof.
  intros Hk He Hne Hmem. unfold Flags.isEnabled. rewrite Hk, He.
  unfold Flags.currentEnv. rewrite Hmem.
  destruct envs; [contradiction|].
  destruct (Flags.enabled flag); reflexivity.
Qed.

(** C2 (the code at the failing input): under the production
    configuration, a flag enabled for ['development'] only is reported
    enabled, although production is not in its list. *)
Theorem C2_environment_check_uses_development :
  Config.createConfig env_production_secret = Ok production_config /\
  tier_of production_config = production /\
  Flags.environments flag_dev_only = Some ["development"] /\
  Str.mem (tier_name (tier_of production_config)) ["development"] = false /\
  Flags.isEnabled (Flags.new production_config [flag_dev_only]) "dev_tools" None
    = true.
Proof. vm_compute. repeat split. Qed.

Lemma evaluateUserRules_true_or_null rules user :
  Flags.evaluateUserRules rules user = Some true \/
  Flags.evaluateUserRules rules user = None.
Proof.
  induction rules as [|rule rest IH]; simpl; [right; reflexivity|].
  destruct (Flags.matchesUserRule rule user); [left; reflexivity|exact IH].
Qed.

(** C10: an enabled flag with user rules, no environments restriction and
    no rollout percentage is on for every identity and for no identity:
    rules that do not match fall through to [flag.enabled]. *)
Theorem C10_user_rules_only_widen ff k flag rules (user : option User.t) :
  Flags.flags ff !! k = Some flag ->
  Flags.enabled flag = true ->
  Flags.userRules flag = Some rules ->
  rules <> [] ->
  (Flags.environments flag = None \/ Flags.environments flag = Some []) ->
  Flags.rolloutPercentage flag = None ->
  Flags.isEnabled ff k user = true.
Proof.
  intros Hk Hen Hr _ Henv Hroll. unfold Flags.isEnabled.
  rewrite Hk, Hen, Hr, Hroll. cbn [negb].
  assert (Hcheck :
    match Flags.environments flag with
    | Some envs => (0 <? length envs)%nat && negb (Str.mem Flags.currentEnv envs)
    | None => false
    end = false) by (destruct Henv as [-> | ->]; reflexivity).
  rewrite Hcheck.
  destruct user as [u|]; [|reflexivity].
  destruct (evaluateUserRules_true_or_null rules u) as [-> | ->]; reflexivity.
Qed.

Lemma C10_user_rules_only_widen_witness :
  Flags.evaluateUserRules
    [ {| Flags.type := Flags.T_role; Flags.operator := Flags.Op_equals;
         Flags.value := Flags.One "admin" |} ] plain_user = None /\
  Flags.isEnabled (Flags.createFeatureFlags production_config)
    "admin_panel" (Some plain_user) = true /\
  Flags.isEnabled (Flags.createFeatureFlags production_config)
    "admin_panel" None = true.
Proof.
  split; [reflexivity|].
  split.
  - eapply (C10_user_rules_only_widen _ "admin_panel" _ _ (Some plain_user));
      [reflexivity | reflexivity | reflexivity | discriminate
      | left; reflexivity | reflexivity].
  - eapply (C10_user_rules_only_widen _ "admin_panel" _ _ None);
      [reflexivity | reflexivity | reflexivity | discriminate
      | left; reflexivity | reflexivity].
Defined.

(** ** Base service helpers *)

Lemma alloc_keeps {U} (xs : list U) (h : Service.Heap U) r ys :
  h !! r = Some ys -> (Service.alloc xs h).2 !! r = Some ys.
Proof.
  intros Hr. unfold Service.alloc. cbn [snd].
  apply lookup_app_l_Some. exact Hr.
Qed.

Lemma alloc_fresh {U} (xs : list U) (h : Service.Heap U) :
  (Service.alloc xs h).1 = length h /\
  (Service.alloc xs h).2 !! (Service.alloc xs h).1 = Some xs.
Proof.
  unfold Service.alloc. cbn [fst snd]. split; [reflexivity|].
  by apply list_lookup_middle.
Qed.

Lemma insert_sorted_Permutation {U} (cmp : U -> U -> Z) x l :
  Permutation (Service.insert_sorted cmp x l) (x :: l).
Proof.
  induction l as [|y l IH]; simpl; [reflexivity|].
  destruct (0 <? cmp x y)%Z; [|reflexivity].
  rewrite IH. apply perm_swap.
Qed.

Lemma sort_Permutation {U} (cmp : U -> U -> Z) l :
  Permutation (Service.sort cmp l) l.
Proof.
  induction l as [|x l IH]; simpl; [reflexivity|].
  unfold Service.sort in IH. rewrite insert_sorted_Permutation.
  by constructor.
Qed.

(** C4, as stated, fails for [applySorting]: sorting the array
    [{k:1}, {k:2}] with the default order leaves the caller's array
    holding [{k:2}, {k:1}]. *)
Lemma C4_applySorting_mutates_input :
  heap_12 !! 0%nat = Some [item_k 1; item_k 2] /\
  Service.applySorting heap_12 0 "k" None
    = Some (0%nat, [ [item_k 2; item_k 1] ]) /\
  keys_at [ [item_k 2; item_k 1] ] 0 = Some [Service.PNum 2; Service.PNum 1] /\
  keys_at heap_12 0 = Some [Service.PNum 1; Service.PNum 2] /\
  [item_k 2; item_k 1] <> [item_k 1; item_k 2].
Proof.
  split; [reflexivity|]. split; [reflexivity|].
  split; [reflexivity|]. split; [reflexivity|].
  intros Heq.
  apply (f_equal (fun l : list Service.Item =>
                    (fun it => Service.get it "k") <$> head l)) in Heq.
  vm_compute in Heq. discriminate Heq.
Qed.

(** C4 (amended): [applyPagination] and [applyTextSearch] leave the input
    array and every other array as they were (the page and the filtered
    list are new arrays; an empty search term gives back the input array
    itself); [applySorting] sorts the input array in place, into a
    permutation of its elements, returns that same array and leaves the
    other arrays as they were. *)
Theorem C4_helpers_and_their_input `{Runtime} (h : Service.Heap Service.Item)
    (items : nat) (xs : list Service.Item) :
  h !! items = Some xs ->
  (forall page limit,
     exists res h',
       Service.applyPagination h items page limit = Some (res, h') /\
       (forall r ys, h !! r = Some ys -> h' !! r = Some ys) /\
       Service.data res = length h /\
       h' !! Service.data res
         = Some (Service.slice xs ((page - 1) * limit)
                               ((page - 1) * limit + limit))) /\
  (forall term fields,
     exists res h',
       Service.applyTextSearch h items term fields = Some (res, h') /\
       (forall r ys, h !! r = Some ys -> h' !! r = Some ys) /\
       (term = "" -> res = items /\ h' = h) /\
       (term <> "" ->
        res = length h /\
        h' !! res
          = Some (List.filter
                    (Service.matches_term (Str.toLowerCase term) fields) xs))) /\
  (forall sortBy sortOrder,
     exists xs',
       Service.applySorting h items sortBy sortOrder
         = Some (items, <[items := xs']> h) /\
       xs' = Service.sort
               (Service.comparator sortBy (default Service.desc sortOrder)) xs /\
       Permutation xs' xs /\
       <[items := xs']> h !! items = Some xs' /\
       (forall r, r <> items -> <[items := xs']> h !! r = h !! r)).
Proof.
  intros Hx. split; [|split].
  - intros page limit. unfold Service.applyPagination. rewrite Hx.
    cbn [mbind option_bind].
    set (page_items := Service.slice xs _ _).
    destruct (Service.alloc page_items h) as [d h'] eqn:Ha.
    eexists; eexists. split; [reflexivity|].
    pose proof (alloc_fresh page_items h) as [Hd Hl].
    rewrite Ha in Hd, Hl. simpl in Hd, Hl.
    split; [|split; [exact Hd|exact Hl]].
    intros r ys Hr. pose proof (alloc_keeps page_items h r ys Hr) as Hk.
    rewrite Ha in Hk. exact Hk.
  - intros term fields. unfold Service.applyTextSearch. rewrite Hx.
    cbn [mbind option_bind].
    destruct (String.eqb_spec term "") as [->|Hne].
    + exists items, h. split; [reflexivity|]. split; [auto|].
      split; [auto|congruence].
    + set (found := List.filter _ xs).
      destruct (Service.alloc found h) as [d h'] eqn:Ha.
      exists d, h'. split; [reflexivity|].
      split.
      * intros r ys Hr. pose proof (alloc_keeps found h r ys Hr) as Hk.
        rewrite Ha in Hk. exact Hk.
      * split; [contradiction|]. intros _.
        pose proof (alloc_fresh found h) as [Hd Hf]. rewrite Ha in Hd, Hf.
        split; [exact Hd|exact Hf].
  - intros sortBy sortOrder. eexists. split.
    + unfold Service.applySorting. rewrite Hx. reflexivity.
    + split; [reflexivity|]. split; [apply sort_Permutation|].
      split.
      * apply list_lookup_insert_eq. eapply lookup_lt_Some; eassumption.
      * intros r Hr. apply list_lookup_insert_ne. congruence.
Qed.

Lemma C4_helpers_and_their_input_witness :
  (exists res h',
     Service.applyPagination heap_12 0 1 1 = Some (res, h') /\
     h' !! 0%nat = Some [item_k 1; item_k 2]) /\
  (exists xs',
     Service.applySorting heap_12 0 "k" None
       = Some (0%nat, <[0%nat := xs']> heap_12) /\
     Permutation xs' [item_k 1; item_k 2]).
Proof.
  destruct (C4_helpers_and_their_input heap_12 0 [item_k 1; item_k 2] eq_refl)
    as (Hp & _ & Hs).
  split.
  - destruct (Hp 1 1) as (res & h' & Hr & Hk & _).
    exists res, h'. split; [exact Hr|]. apply Hk. reflexivity.
  - destruct (Hs "k" None) as (xs' & Hr & _ & Hperm & _).
    exists xs'. split; [exact Hr|exact Hperm].
Defined.

(** ** Service container *)

Section ContainerProperties.
Import Container.
Local Open Scope nat_scope.

Lemma reg_kept_refl reg : reg_kept reg reg.
Proof. by repeat split. Qed.

Lemma reg_kept_trans a b c : reg_kept a b -> reg_kept b c -> reg_kept a c.
Proof.
  intros (H1 & H2 & H3) (H4 & H5 & H6). repeat split; try congruence.
  intros Hs. rewrite H6, H3; congruence.
Qed.

Lemma Preserved_refl s : Preserved s s.
Proof. split; [lia|]. intros r reg Hr. exists reg. split; [done|apply reg_kept_refl]. Qed.

Lemma Preserved_trans s1 s2 s3 : Preserved s1 s2 -> Preserved s2 s3 -> Preserved s1 s3.
Proof.
  intros [Ha1 Hr1] [Ha2 Hr2]. split; [lia|].
  intros r reg Hr. destruct (Hr1 r reg Hr) as (reg' & Hr' & Hk).
  destruct (Hr2 r reg' Hr') as (reg'' & Hr'' & Hk').
  exists reg''. split; [done|]. eapply reg_kept_trans; eauto.
Qed.

Lemma Preserved_same_registrations s s' :
  registrations s' = registrations s -> allocated s <= allocated s' -> Preserved s s'.
Proof.
  intros Hr Ha. split; [done|]. intros r reg Hl. exists reg. rewrite Hr.
  split; [done|apply reg_kept_refl].
Qed.

Lemma store_registration_Preserved c token reg s :
  outcome_preserved s (store_registration c token reg s).
Proof.
  unfold store_registration.
  destruct (containers s !! c) as [this|]; [|done].
  destruct (registries s !! registry this) as [g|]; [|done].
  split; [done|]. intros r reg0 Hr. exists reg0. split; [|apply reg_kept_refl].
  simpl. by apply lookup_app_l_Some.
Qed.

Lemma withUser_Preserved c u s : outcome_preserved s (withUser c u s).
Proof.
  unfold withUser. destruct (containers s !! c); [|done].
  by apply Preserved_same_registrations.
Qed.

Lemma setUser_Preserved c u s : outcome_preserved s (setUser c u s).
Proof.
  unfold setUser. destruct (containers s !! c); [|done].
  by apply Preserved_same_registrations.
Qed.

Lemma bump_Preserved s : Preserved s (bump s).
Proof. apply Preserved_same_registrations; simpl; [done|lia]. Qed.

Lemma set_instance_Preserved r v s reg :
  registrations s !! r = Some reg -> singleton reg = true ->
  Preserved s (set_instance r v s).
Proof.
  intros Hr Hs. split; [done|]. intros r' reg' Hr'. simpl.
  destruct (decide (r' = r)) as [->|Hne].
  - rewrite list_lookup_alter_eq, Hr'. simpl. eexists. split; [done|].
    repeat split. simpl. intros Hf. congruence.
  - rewrite list_lookup_alter_ne by done. exists reg'. split; [done|apply reg_kept_refl].
Qed.

Lemma bind_preserved {A B} s (m : Outcome A) (f : A -> Store -> Outcome B) :
  outcome_preserved s m ->
  (forall a s', outcome_preserved s' (f a s')) ->
  outcome_preserved s (bind m f).
Proof.
  intros Hm Hf. destruct m as [a s'|e s'| |]; simpl in *; try done.
  specialize (Hf a s'). destruct (f a s'); simpl in *; try done;
    eapply Preserved_trans; eauto.
Qed.

Lemma resolve_with_Preserved runb :
  (forall b s, outcome_preserved s (runb b s)) ->
  forall c token s, outcome_preserved s (resolve_with runb c token s).
Proof.
  intros Hrun c token s. unfold resolve_with.
  destruct (containers s !! c) as [this|]; [|done].
  destruct (registries s !! registry this) as [g|]; [|done].
  destruct (g !! token) as [r|]; [|apply Preserved_refl].
  destruct (registrations s !! r) as [reg|] eqn:Hr; [|done].
  destruct (singleton reg && negb (is_undefined (instance reg))); [apply Preserved_refl|].
  destruct (negb (is_undefined (instance reg))); [apply Preserved_refl|].
  apply bind_preserved.
  - unfold construct_with. destruct (constructor reg) as [body|v]; [|apply Preserved_refl].
    apply bind_preserved.
    + specialize (Hrun (body c) (bump s)).
      destruct (runb (body c) (bump s)); simpl in *; try done;
        (eapply Preserved_trans; [apply bump_Preserved|done]).
    + intros _ s'. apply Preserved_refl.
  - intros inst s'. destruct (registrations s' !! r) as [reg'|] eqn:Hr'; [|done].
    destruct (singleton reg') eqn:Hs; [|apply Preserved_refl].
    eapply set_instance_Preserved; eauto.
Qed.

Lemma run_Preserved fuel : forall b s, outcome_preserved s (run fuel b s).
Proof.
  induction fuel as [|fuel IH]; intros b s; [done|].
  destruct b; simpl.
  - apply Preserved_refl.
  - apply Preserved_refl.
  - apply bind_preserved; [by apply resolve_with_Preserved|auto].
  - apply bind_preserved; [|auto]. unfold has.
    destruct (containers s !! c) as [this|]; [|done].
    destruct (registries s !! registry this); [apply Preserved_refl|done].
  - apply bind_preserved; [|auto]. unfold getContext.
    destruct (containers s !! c); [apply Preserved_refl|done].
  - apply bind_preserved; [apply store_registration_Preserved|auto].
  - apply bind_preserved; [apply store_registration_Preserved|auto].
  - apply bind_preserved; [apply setUser_Preserved|auto].
  - apply bind_preserved; [apply withUser_Preserved|auto].
Qed.

Lemma entry_Some s c token r :
  entry s c token = Some r <->
  exists this g, containers s !! c = Some this /\
                 registries s !! registry this = Some g /\ g !! token = Some r.
Proof.
  unfold entry. split.
  - intros He. destruct (containers s !! c) as [this|]; [|done]. simpl in He.
    destruct (registries s !! registry this) as [g|] eqn:Hg; [|done]. simpl in He.
    eauto.
  - intros (this & g & -> & Hg & Ht). simpl. rewrite Hg. done.
Qed.

Lemma entry_live s c token r : entry s c token = Some r -> live s c.
Proof. rewrite entry_Some. intros (this & g & ? & ? & ?). exists this, g. done. Qed.

Lemma resolve_unregistered fuel s c token :
  live s c -> entry s c token = None ->
  resolve fuel c token s = Throws (ServiceNotRegistered token) s.
Proof.
  intros (this & g & Hc & Hg) He. unfold resolve, resolve_with.
  unfold entry in He. rewrite Hc in He. simpl in He. rewrite Hg in He. simpl in He.
  by rewrite Hc, Hg, He.
Qed.

Lemma resolve_cached fuel s c token r reg :
  entry s c token = Some r ->
  registrations s !! r = Some reg ->
  instance reg <> VUndefined ->
  resolve fuel c token s = Returns (instance reg) s.
Proof.
  rewrite entry_Some. intros (this & g & Hc & Hg & Ht) Hr Hi.
  unfold resolve, resolve_with. rewrite Hc, Hg, Ht, Hr.
  assert (is_undefined (instance reg) = false) as -> by (by destruct (instance reg)).
  by destruct (singleton reg).
Qed.

Lemma resolve_construct fuel s c token r reg body s1 :
  entry s c token = Some r ->
  registrations s !! r = Some reg ->
  instance reg = VUndefined ->
  constructor reg = Class body ->
  run fuel (body c) (bump s) = Returns tt s1 ->
  resolve fuel c token s
    = Returns (VObj (allocated s))
        (if singleton reg then set_instance r (VObj (allocated s)) s1 else s1).
Proof.
  rewrite entry_Some. intros (this & g & Hc & Hg & Ht) Hr Hi Hctor Hrun.
  unfold resolve, resolve_with. rewrite Hc, Hg, Ht, Hr, Hi, Hctor.
  rewrite andb_false_r. cbn [is_undefined negb construct_with].
  rewrite Hrun. cbn [bind].
  pose proof (run_Preserved fuel (body c) (bump s)) as Hp. rewrite Hrun in Hp.
  pose proof (Preserved_trans _ _ _ (bump_Preserved s) Hp) as [_ Hk].
  destruct (Hk r reg Hr) as (reg' & Hr' & _ & Hs & _).
  rewrite Hr', Hs. by destruct (singleton reg).
Qed.

Lemma resolve_arrow_undefined fuel s c token r reg v :
  entry s c token = Some r ->
  registrations s !! r = Some reg ->
  instance reg = VUndefined ->
  constructor reg = ArrowFn v ->
  resolve fuel c token s = Throws NotAConstructor s.
Proof.
  rewrite entry_Some. intros (this & g & Hc & Hg & Ht) Hr Hi Hctor.
  unfold resolve, resolve_with. rewrite Hc, Hg, Ht, Hr, Hi, Hctor.
  rewrite andb_false_r. reflexivity.
Qed.

Lemma store_registration_spec c token reg s :
  live s c ->
  exists s',
    store_registration c token reg s = Returns tt s' /\
    entry s' c token = Some (length (registrations s)) /\
    registrations s' = (registrations s ++ [reg])%list /\
    containers s' = containers s /\
    allocated s' = allocated s /\
    (forall token', token' <> token -> entry s' c token' = entry s c token').
Proof.
  intros (this & g & Hc & Hg). unfold store_registration. rewrite Hc, Hg.
  eexists. split; [reflexivity|].
  assert (Hl : registry this < length (registries s)) by (by eapply lookup_lt_Some).
  split; [|split; [done|split; [done|split; [done|]]]].
  - unfold entry. simpl. rewrite Hc. simpl.
    rewrite list_lookup_insert_eq by done. simpl. by rewrite lookup_insert_eq.
  - intros token' Hne. unfold entry. simpl. rewrite Hc. simpl.
    rewrite list_lookup_insert_eq by done. rewrite Hg. simpl.
    by rewrite lookup_insert_ne.
Qed.

Lemma withUser_spec p u s this :
  containers s !! p = Some this ->
  exists s',
    withUser p u s = Returns (length (containers s)) s' /\
    containers s' = (containers s ++
      [ {| registry := registry this;
           context := {| env := env (context this);
                         container := length (containers s);
                         user := Some u |} |} ])%list /\
    registries s' = (registries s ++ [∅])%list /\
    registrations s' = registrations s /\
    allocated s' = allocated s.
Proof.
  intros Hc. unfold withUser. rewrite Hc. cbn [new_Container].
  eexists. split; [reflexivity|]. simpl.
  split; [|done].
  rewrite alter_app_r_alt by lia. by rewrite Nat.sub_diag.
Qed.

Lemma withUser_entries p u s this :
  containers s !! p = Some this ->
  exists s',
    withUser p u s = Returns (length (containers s)) s' /\
    registrations s' = registrations s /\
    allocated s' = allocated s /\
    containers s' !! length (containers s)
      = Some {| registry := registry this;
                context := {| env := env (context this);
                              container := length (containers s);
                              user := Some u |} |} /\
    (forall c co, containers s !! c = Some co -> containers s' !! c = Some co) /\
    (forall c, live s c -> live s' c) /\
    (forall c token, live s c -> entry s' c token = entry s c token) /\
    (live s p -> live s' (length (containers s)) /\
                 forall token, entry s' (length (containers s)) token = entry s p token).
Proof.
  intros Hp. destruct (withUser_spec p u s this Hp) as (s' & Hw & Hcs & Hgs & Hrs & Ha).
  exists s'. split; [done|]. split; [done|]. split; [done|].
  assert (Hnew : containers s' !! length (containers s)
      = Some {| registry := registry this;
                context := {| env := env (context this);
                              container := length (containers s);
                              user := Some u |} |}).
  { rewrite Hcs. by apply list_lookup_middle. }
  assert (Hold : forall c co, containers s !! c = Some co -> containers s' !! c = Some co).
  { intros c co Hc. rewrite Hcs. by apply lookup_app_l_Some. }
  assert (Hreg : forall g m, registries s !! g = Some m -> registries s' !! g = Some m).
  { intros g m Hg. rewrite Hgs. by apply lookup_app_l_Some. }
  split; [done|]. split; [done|].
  split; [|split].
  - intros c (co & g & Hc & Hg). exists co, g. eauto.
  - intros c token (co & g & Hc & Hg). unfold entry.
    rewrite (Hold _ _ Hc), Hc. simpl. by rewrite (Hreg _ _ Hg), Hg.
  - intros (co & g & Hc & Hg). rewrite Hp in Hc. injection Hc as <-. split.
    + eexists; exists g. split; [exact Hnew|]. simpl. eauto.
    + intros token. unfold entry. rewrite Hnew, Hp. simpl.
      by rewrite (Hreg _ _ Hg), Hg.
Qed.


Lemma register_spec c token ctor o s :
  live s c ->
  exists s',
    register c token ctor o s = Returns tt s' /\
    entry s' c token = Some (length (registrations s)) /\
    registrations s' !! length (registrations s)
      = Some {| constructor := ctor; singleton := default true o;
                instance := VUndefined |} /\
    allocated s' = allocated s /\
    (forall r reg, registrations s !! r = Some reg ->
                   registrations s' !! r = Some reg /\ entry s' c token <> Some r) /\
    (forall token', token' <> token -> entry s' c token' = entry s c token').
Proof.
  intros Hl. unfold register.
  destruct (store_registration_spec c token
              {| constructor := ctor; singleton := default true o;
                 instance := VUndefined |} s Hl)
    as (s' & Hs & He & Hr & _ & Ha & Ho).
  exists s'. split; [done|]. split; [done|].
  split; [rewrite Hr; by apply list_lookup_middle|].
  split; [done|]. split; [|done].
  intros r reg Hreg. split; [rewrite Hr; by apply lookup_app_l_Some|].
  rewrite He. apply lookup_lt_Some in Hreg. intros [= Heq]. lia.
Qed.

Lemma registerValue_spec c token v s :
  live s c ->
  exists s',
    registerValue c token v s = Returns tt s' /\
    entry s' c token = Some (length (registrations s)) /\
    registrations s' !! length (registrations s)
      = Some {| constructor := ArrowFn v; singleton := true; instance := v |} /\
    allocated s' = allocated s /\
    (forall r reg, registrations s !! r = Some reg ->
                   registrations s' !! r = Some reg /\ entry s' c token <> Some r) /\
    (forall token', token' <> token -> entry s' c token' = entry s c token').
Proof.
  intros Hl. unfold registerValue.
  destruct (store_registration_spec c token
              {| constructor := ArrowFn v; singleton := true; instance := v |} s Hl)
    as (s' & Hs & He & Hr & _ & Ha & Ho).
  exists s'. split; [done|]. split; [done|].
  split; [rewrite Hr; by apply list_lookup_middle|].
  split; [done|]. split; [|done].
  intros r reg Hreg. split; [rewrite Hr; by apply lookup_app_l_Some|].
  rewrite He. apply lookup_lt_Some in Hreg. intros [= Heq]. lia.
Qed.

(** More fuel does not change an outcome that did not run out of it. *)
Lemma bind_fuel {A B} (m : Outcome A) (f : A -> Store -> Outcome B) :
  bind m f <> OutOfFuel -> m <> OutOfFuel.
Proof. intros Hb ->. by apply Hb. Qed.

Lemma bind_mono {A B} (m : Outcome A) (f f' : A -> Store -> Outcome B) :
  (forall a s, f a s <> OutOfFuel -> f' a s = f a s) ->
  bind m f <> OutOfFuel -> bind m f' = bind m f.
Proof. intros Hf Hb. destruct m; simpl in *; auto. Qed.

Lemma resolve_with_mono runb runb' :
  (forall b s, runb b s <> OutOfFuel -> runb' b s = runb b s) ->
  forall c token s,
    resolve_with runb c token s <> OutOfFuel ->
    resolve_with runb' c token s = resolve_with runb c token s.
Proof.
  intros Hrun c token s. unfold resolve_with.
  destruct (containers s !! c) as [this|]; [|done].
  destruct (registries s !! registry this) as [g|]; [|done].
  destruct (g !! token) as [r|]; [|done].
  destruct (registrations s !! r) as [reg|]; [|done].
  destruct (singleton reg && negb (is_undefined (instance reg))); [done|].
  destruct (negb (is_undefined (instance reg))); [done|].
  intros Hb. apply bind_fuel in Hb as Hc.
  assert (Heq : construct_with runb' (constructor reg) c s
                = construct_with runb (constructor reg) c s).
  { unfold construct_with in *. destruct (constructor reg) as [body|v]; [|done].
    apply bind_fuel in Hc. by rewrite (Hrun _ _ Hc). }
  by rewrite Heq.
Qed.

Lemma run_fuel_mono fuel :
  forall b s, run fuel b s <> OutOfFuel ->
  forall fuel', fuel <= fuel' -> run fuel' b s = run fuel b s.
Proof.
  induction fuel as [|fuel IH]; intros b s Hne fuel' Hle; [done|].
  destruct fuel' as [|fuel']; [lia|].
  assert (Hk : forall b s, run fuel b s <> OutOfFuel -> run fuel' b s = run fuel b s).
  { intros b0 s0 H0. apply IH; [done|lia]. }
  destruct b; simpl in *; try done.
  - rewrite (resolve_with_mono (run fuel) (run fuel') Hk).
    + apply bind_mono; [|done]. intros a s'. apply Hk.
    + by apply bind_fuel in Hne.
  - apply bind_mono; [|done]. intros a s'. apply Hk.
  - apply bind_mono; [|done]. intros a s'. apply Hk.
  - apply bind_mono; [|done]. intros a s'. apply Hk.
  - apply bind_mono; [|done]. intros a s'. apply Hk.
  - apply bind_mono; [|done]. intros a s'. apply Hk.
  - apply bind_mono; [|done]. intros a s'. apply Hk.
Qed.

Lemma resolve_fuel_mono fuel fuel' c token s :
  resolve fuel c token s <> OutOfFuel -> fuel <= fuel' ->
  resolve fuel' c token s = resolve fuel c token s.
Proof.
  intros Hne Hle. unfold resolve in *. apply resolve_with_mono; [|done].
  intros b s0 H0. by apply run_fuel_mono.
Qed.

Lemma register_containers c token ctor o s s' :
  register c token ctor o s = Returns tt s' -> containers s' = containers s.
Proof.
  unfold register, store_registration.
  destruct (containers s !! c) as [this|]; [|done].
  destruct (registries s !! registry this); [|done].
  by intros [= <-].
Qed.

Lemma entry_shared s c1 c2 a b token :
  containers s !! c1 = Some a -> containers s !! c2 = Some b ->
  registry a = registry b ->
  entry s c1 token = entry s c2 token.
Proof. intros H1 H2 Hr. unfold entry. rewrite H1, H2. simpl. by rewrite Hr. Qed.

(** C7: [withUser(u)] on a container returns a container that was not in
    the store before, whose context carries [u] while the context of the
    parent is what it was, and whose registry is the parent's registry
    object: a token whose instance is cached resolves to that same
    instance through the parent and through the derived container, and a
    registration made through the derived container is the parent's
    too. *)
Theorem C7_withUser s p u :
  live s p ->
  exists d s' parent,
    withUser p u s = Returns d s' /\
    containers s !! p = Some parent /\
    containers s !! d = None /\
    getContext d s'
      = Returns {| env := env (context parent); container := d; user := Some u |} s' /\
    getContext p s' = Returns (context parent) s' /\
    (exists derived, containers s' !! d = Some derived /\
                     registry derived = registry parent) /\
    (forall token r reg fuel,
       entry s p token = Some r ->
       registrations s !! r = Some reg ->
       instance reg <> VUndefined ->
       resolve fuel p token s = Returns (instance reg) s /\
       resolve fuel d token s' = Returns (instance reg) s' /\
       resolve fuel p token s' = Returns (instance reg) s') /\
    (forall token ctor o,
       exists s'',
         register d token ctor o s' = Returns tt s'' /\
         is_Some (entry s'' d token) /\
         entry s'' p token = entry s'' d token).
Proof.
  intros Hlive. pose proof Hlive as (parent & g & Hp & Hg).
  destruct (withUser_entries p u s parent Hp)
    as (s' & Hw & Hrs & Ha & Hnew & Hold & Hl & He & Hd).
  destruct (Hd Hlive) as (Hdl & Hde).
  exists (length (containers s)), s', parent.
  split; [done|]. split; [done|].
  split; [by apply lookup_ge_None|].
  split; [unfold getContext; by rewrite Hnew|].
  split; [unfold getContext; by rewrite (Hold _ _ Hp)|].
  split; [eexists; split; [exact Hnew|done]|].
  split.
  - intros token r reg fuel Her Hr Hi.
    split; [by eapply resolve_cached|].
    split; eapply resolve_cached; eauto; try (by rewrite Hrs).
    + by rewrite Hde.
    + by rewrite He.
  - intros token ctor o.
    destruct (register_spec (length (containers s)) token ctor o s' Hdl)
      as (s'' & Hs & He' & _).
    exists s''. split; [done|]. split; [rewrite He'; eauto|].
    pose proof (register_containers _ _ _ _ _ _ Hs) as Hcs.
    eapply entry_shared;
      [rewrite Hcs; apply (Hold _ _ Hp) | rewrite Hcs; exact Hnew | reflexivity].
Qed.



(** C8 (amended): for every value [v] other than [undefined], after
    [registerValue(token, v)] every [resolve(token)] returns [v] and
    leaves the store as it is (no constructor runs, no fuel is needed),
    through the container and through each of any number of containers
    derived from it with [withUser]; a registration that holds [v] as its
    instance resolves to [v] whatever its singleton flag. *)
Theorem C8_registerValue s c token v (us : list User.t) :
  live s c ->
  v <> VUndefined ->
  exists s1 ds s2,
    registerValue c token v s = Returns tt s1 /\
    (forall fuel, resolve fuel c token s1 = Returns v s1) /\
    derive_many c us s1 = Returns ds s2 /\
    length ds = length us /\
    (forall d fuel, d ∈ c :: ds -> resolve fuel d token s2 = Returns v s2) /\
    (forall s' d r reg fuel,
       entry s' d token = Some r ->
       registrations s' !! r = Some reg ->
       instance reg = v ->
       resolve fuel d token s' = Returns v s').
Proof.
  intros Hl Hv.
  destruct (registerValue_spec c token v s Hl) as (s1 & Hs & He & Hr & _).
  set (r := length (registrations s)) in *.
  set (reg := {| constructor := ArrowFn v; singleton := true; instance := v |}) in *.
  exists s1.
  assert (Hl1 : live s1 c) by (by eapply entry_live).
  assert (Hmany : forall us s1,
    live s1 c -> entry s1 c token = Some r -> registrations s1 !! r = Some reg ->
    exists ds s2,
      derive_many c us s1 = Returns ds s2 /\ length ds = length us /\
      registrations s2 = registrations s1 /\
      (forall c' t, live s1 c' -> live s2 c' /\ entry s2 c' t = entry s1 c' t) /\
      (forall d, d ∈ ds -> entry s2 d token = Some r)).
  { clear. intros us. induction us as [|u us IH]; intros s1 Hl1 He Hr.
    - exists [], s1. repeat split; try done. intros d Hd. by apply elem_of_nil in Hd.
    - pose proof Hl1 as (this & g & Hc & Hg).
      destruct (withUser_entries c u s1 this Hc)
        as (s' & Hw & Hrs & _ & _ & _ & Hlive & Hent & Hd).
      destruct (Hd Hl1) as (Hdl & Hde).
      destruct (IH s' (Hlive _ Hl1)) as (ds & s2 & Hm & Hlen & Hrs2 & Hkeep & Hds).
      { by rewrite Hent. } { by rewrite Hrs. }
      exists (length (containers s1) :: ds), s2. simpl. rewrite Hw. simpl. rewrite Hm. simpl.
      split; [done|]. split; [by rewrite Hlen|]. split; [congruence|].
      split.
      + intros c' t Hc'. destruct (Hkeep c' t (Hlive _ Hc')) as [? ?].
        split; [done|]. rewrite <- (Hent c' t Hc'). done.
      + intros d Hd'. apply elem_of_cons in Hd' as [-> | Hd'].
        * destruct (Hkeep (length (containers s1)) token Hdl) as [_ ->].
          by rewrite Hde.
        * by apply Hds. }
  destruct (Hmany us s1 Hl1 He Hr) as (ds & s2 & Hm & Hlen & Hrs2 & Hkeep & Hds).
  exists ds, s2. split; [done|].
  split; [intros fuel; by apply (resolve_cached fuel s1 c token r reg)|].
  split; [done|]. split; [done|]. split.
  - intros d fuel Hd. apply (resolve_cached fuel s2 d token r reg).
    + apply elem_of_cons in Hd as [-> | Hd].
      * destruct (Hkeep c token Hl1) as [_ ->]. done.
      * by apply Hds.
    + by rewrite Hrs2.
    + done.
  - intros s' d r' reg' fuel He' Hr' Hi'. rewrite <- Hi'.
    apply (resolve_cached fuel s' d token r' reg'); [done|done|].
    by rewrite Hi'.
Qed.

Lemma live_store_fresh : live store_fresh 0.
Proof. eexists; eexists. split; reflexivity. Qed.

Lemma live_store_values : live store_values 0.
Proof. eexists; eexists. split; reflexivity. Qed.





Lemma C7_withUser_witness :
  exists d s',
    withUser 0 plain_user store_values = Returns d s' /\
    getContext 0 s'
      = Returns {| env := ∅; container := 0; user := None |} s' /\
    resolve 0 d "config" s' = Returns (VObj 100) s'.
Proof.
  destruct (C7_withUser store_values 0 plain_user live_store_values)
    as (d & s' & parent & Hw & Hp & _ & _ & Hctx & _ & Hres & _).
  exists d, s'. split; [exact Hw|].
  injection Hp as <-. split; [exact Hctx|].
  destruct (Hres "config" 0%nat
              {| constructor := ArrowFn (VObj 100); singleton := true;
                 instance := VObj 100 |} 0%nat eq_refl eq_refl)
    as (_ & Hd & _); [discriminate|exact Hd].
Defined.

(** C8, as stated, fails for the value [undefined]: the registration then
    has no instance, and [resolve] applies [new] to the stored arrow
    function, which throws. *)
Lemma C8_undefined_value_throws :
  registerValue 0 "value" VUndefined store_fresh
    = Returns tt store_undefined_value /\
  resolve 5 0 "value" store_undefined_value
    = Throws NotAConstructor store_undefined_value.
Proof. vm_compute. split; reflexivity. Qed.

Lemma C8_registerValue_witness :
  exists s1 ds s2,
    registerValue 0 "database" VNull store_fresh = Returns tt s1 /\
    derive_many 0 [plain_user; plain_user] s1 = Returns ds s2 /\
    length ds = 2%nat /\
    forall d, d ∈ 0%nat :: ds -> resolve 0 d "database" s2 = Returns VNull s2.
Proof.
  destruct (C8_registerValue store_fresh 0 "database" VNull
              [plain_user; plain_user] live_store_fresh)
    as (s1 & ds & s2 & Hs & _ & Hm & Hlen & Hres & _); [discriminate|].
  exists s1, ds, s2. split; [exact Hs|]. split; [exact Hm|].
  split; [exact Hlen|]. intros d Hd. apply Hres. exact Hd.
Defined.

End ContainerProperties.

(** * Further properties *)

(** ** Configuration: outcomes of [createConfig], unknown keys, SMTP *)

(** Every field of a parsed environment, read off the raw input. *)
Lemma parse_fields `{Runtime} env e :
  Env.EnvironmentSchema_parse env = Some e ->
  Env.z_default Env.z_enum_tier development (env !! "NODE_ENV")
    = Some (Env.NODE_ENV e) /\
  Env.z_optional (Env.z_string_min 32) (env !! "BETTER_AUTH_SECRET")
    = Some (Env.BETTER_AUTH_SECRET e) /\
  Env.z_optional Env.z_string (env !! "SMTP_HOST") = Some (Env.SMTP_HOST e) /\
  Env.z_optional Env.z_coerce_number (env !! "SMTP_PORT") = Some (Env.SMTP_PORT e) /\
  Env.z_optional Env.z_string (env !! "SMTP_USER") = Some (Env.SMTP_USER e) /\
  Env.z_optional Env.z_string (env !! "SMTP_PASS") = Some (Env.SMTP_PASS e).
Proof.
  unfold Env.EnvironmentSchema_parse. intros Hp.
  repeat match type of Hp with
  | (?m ≫= _) = Some _ => destruct m eqn:?; simpl in Hp; [|discriminate]
  end.
  injection Hp as <-. simpl. auto 10.
Qed.

Lemma parsed_secret_length `{Runtime} env e s :
  Env.EnvironmentSchema_parse env = Some e ->
  Env.BETTER_AUTH_SECRET e = Some s ->
  (32 <= String.length s)%nat.
Proof.
  intros Hp Hs. destruct (parse_fields _ _ Hp) as (_ & Hsec & _).
  rewrite Hs in Hsec. unfold Env.z_optional in Hsec.
  destruct (env !! "BETTER_AUTH_SECRET") as [x|]; [|discriminate].
  destruct x as [t| | |]; try discriminate.
  unfold Env.z_string_min in Hsec. cbn [Env.z_string mbind option_bind] in Hsec.
  destruct (Nat.leb_spec 32 (String.length t)); [|discriminate].
  simpl in Hsec. congruence.
Qed.

(** X1: the outcomes of [createConfig].  It returns exactly when the
    schema accepts the environment and, in production, the secret is
    there, or when the schema rejects an environment marked 'development'
    (then the configuration is the development one built from defaults).
    It throws 'validation failed' or 'secret required' and nothing else:
    the 'at least 32 characters' error of the production check cannot
    occur, the schema having rejected such a secret before. *)
Theorem X1_createConfig_outcomes `{Runtime} env :
  match Config.createConfig env with
  | Ok c =>
      (exists e, Env.EnvironmentSchema_parse env = Some e /\
                 c = Config.compose e (bundle (Env.NODE_ENV e)) /\
                 (Env.NODE_ENV e = production ->
                  exists s, Env.BETTER_AUTH_SECRET e = Some s /\
                            (32 <= String.length s)%nat)) \/
      (Env.EnvironmentSchema_parse env = None /\
       env !! "NODE_ENV" = Some (RStr "development") /\
       c = Config.compose all_defaults Settings.developmentSettings)
  | Throw x =>
      (x = EnvironmentValidationFailed /\
       Env.EnvironmentSchema_parse env = None /\
       env !! "NODE_ENV" <> Some (RStr "development")) \/
      (x = AuthSecretRequired /\
       exists e, Env.EnvironmentSchema_parse env = Some e /\
                 Env.NODE_ENV e = production /\
                 Env.BETTER_AUTH_SECRET e = None)
  end.
Proof.
  unfold Config.createConfig, Env.validateEnvironment.
  destruct (Env.EnvironmentSchema_parse env) as [e|] eqn:Hp.
  - cbn [mbind Result_bind].
    destruct (decide (Env.NODE_ENV e = production)) as [Hprod|Hnp].
    + unfold Env.validateProductionEnvironment.
      destruct (decide (Env.NODE_ENV e = production)); [|contradiction].
      destruct (Env.BETTER_AUTH_SECRET e) as [s|] eqn:Hs.
      * pose proof (parsed_secret_length env e s Hp Hs) as Hlen.
        assert (Hf : Env.falsy (Some s) = false).
        { destruct s; [simpl in Hlen; lia|reflexivity]. }
        rewrite Hf. change (default "" (Some s)) with s.
        destruct (Nat.ltb_spec (String.length s) 32); [lia|].
        left. exists e. split; [reflexivity|]. split; [reflexivity|].
        intros _. exists s. split; [exact Hs|exact Hlen].
      * cbn [Env.falsy mbind Result_bind]. right.
        split; [reflexivity|]. exists e. auto.
    + cbn [mbind Result_bind]. left. exists e.
      split; [reflexivity|]. split; [reflexivity|]. contradiction.
  - rewrite parse_empty.
    destruct (decide (env !! "NODE_ENV" = Some (RStr "development"))) as [Hd|Hd].
    + right. auto.
    + left. auto.
Qed.

Lemma schema_key_ne k k' : k ∉ schema_keys -> k' ∈ schema_keys -> k <> k'.
Proof. intros Hk Hk' Heq. apply Hk. by rewrite Heq. Qed.

Lemma parse_unknown_key `{Runtime} env k v :
  k ∉ schema_keys ->
  Env.EnvironmentSchema_parse (<[k := v]> env) = Env.EnvironmentSchema_parse env.
Proof.
  intros Hk. unfold Env.EnvironmentSchema_parse.
  rewrite !lookup_insert_ne
    by (apply (schema_key_ne _ _ Hk); unfold schema_keys; set_solver).
  reflexivity.
Qed.

(** X2: a key the schema does not declare is ignored: adding it to the
    raw environment, with any value, changes neither the validated
    environment nor the configuration (nor whether they throw). *)
Theorem X2_unknown_keys_ignored `{Runtime} env k v :
  k ∉ schema_keys ->
  Env.validateEnvironment (<[k := v]> env) = Env.validateEnvironment env /\
  Config.createConfig (<[k := v]> env) = Config.createConfig env.
Proof.
  intros Hk.
  assert (Hv : Env.validateEnvironment (<[k := v]> env)
               = Env.validateEnvironment env).
  { unfold Env.validateEnvironment. rewrite (parse_unknown_key env k v Hk).
    rewrite lookup_insert_ne
      by (apply (schema_key_ne _ _ Hk); unfold schema_keys; set_solver).
    reflexivity. }
  split; [exact Hv|]. unfold Config.createConfig. by rewrite Hv.
Qed.

Lemma X2_unknown_keys_ignored_witness :
  Config.createConfig env_staging_extra = Config.createConfig env_staging.
Proof.
  apply (X2_unknown_keys_ignored env_staging "PATH" (RStr "/usr/bin")).
  unfold schema_keys. intros Hin.
  repeat (apply elem_of_cons in Hin as [Hin|Hin]; [discriminate|]).
  by apply elem_of_nil in Hin.
Defined.

(** X3: the SMTP block of the configuration exists exactly when SMTP_HOST
    is a non-empty string; without a host the port, user and password of
    the environment appear nowhere, and with one the block carries the
    four validated values. *)
Theorem X3_smtp_block_needs_host `{Runtime} env c :
  Config.createConfig env = Ok c ->
  is_Some (Env.EnvironmentSchema_parse env) ->
  (Config.smtp (Config.email c) = None <->
   env !! "SMTP_HOST" = None \/ env !! "SMTP_HOST" = Some (RStr "")) /\
  (forall h, env !! "SMTP_HOST" = Some (RStr h) -> h <> "" ->
     exists e, Env.EnvironmentSchema_parse env = Some e /\
       Config.smtp (Config.email c)
         = Some {| Config.host := Some h; Config.port := Env.SMTP_PORT e;
                   Config.user := Env.SMTP_USER e;
                   Config.pass := Env.SMTP_PASS e |}).
Proof.
  intros Hc [e Hp].
  destruct (createConfig_inv _ _ Hc) as (e' & Hv & -> & _).
  unfold Env.validateEnvironment in Hv. rewrite Hp in Hv. injection Hv as <-.
  destruct (parse_fields _ _ Hp) as (_ & _ & Hhost & _).
  cbn [Config.compose Config.email Config.smtp].
  unfold Env.z_optional in Hhost.
  destruct (env !! "SMTP_HOST") as [x|] eqn:Hraw.
  - destruct x as [t| | |]; try discriminate.
    cbn [Env.z_string fmap option_fmap option_map] in Hhost.
    injection Hhost as Hhost. rewrite <- Hhost. cbn [Env.falsy].
    destruct (String.eqb_spec t "") as [->|Hne].
    + split.
      * split; [auto|reflexivity].
      * intros h [= <-] Hh. contradiction.
    + split.
      * split; [discriminate|]. intros [Hn|Hn]; [discriminate|congruence].
      * intros h [= <-] _. exists e. split; [exact Hp|]. reflexivity.
  - injection Hhost as Hhost. rewrite <- Hhost. cbn [Env.falsy].
    split; [split; auto|]. intros h Hh. discriminate.
Qed.

Lemma X3_smtp_block_needs_host_witness :
  exists c, Config.createConfig env_staging_smtp = Ok c /\
            Config.smtp (Config.email c) = None.
Proof.
  eexists. split; [vm_compute; reflexivity|].
  apply (X3_smtp_block_needs_host env_staging_smtp);
    [vm_compute; reflexivity | vm_compute; eauto | left; reflexivity].
Defined.

(** ** [mergeSettings] *)

(** X4: merging no overrides gives back the base settings; a group that
    the overrides provide replaces the group of the base where all its
    fields are required (here the database and rate-limit groups), and a
    group they leave out is kept; merging the same overrides twice is
    merging them once. *)
Theorem X4_mergeSettings_groups base over :
  Merge.mergeSettings base Merge.no_overrides = base /\
  (forall d, Merge.database over = Some d ->
             Settings.database (Merge.mergeSettings base over) = d) /\
  (forall r, Merge.rateLimit over = Some r ->
             Settings.rateLimit (Merge.mergeSettings base over) = r) /\
  (Merge.database over = None ->
   Settings.database (Merge.mergeSettings base over) = Settings.database base) /\
  (Merge.security over = None ->
   Settings.security (Merge.mergeSettings base over) = Settings.security base) /\
  Merge.mergeSettings (Merge.mergeSettings base over) over
    = Merge.mergeSettings base over.
Proof.
  split; [|split; [|split; [|split; [|split]]]].
  - destruct base as [? ? ? ? ? ? ? ? ? [[]]]. reflexivity.
  - intros d Hd. cbn. by rewrite Hd.
  - intros r Hr. cbn. by rewrite Hr.
  - intros Hd. cbn. by rewrite Hd.
  - intros Hs. cbn. by rewrite Hs.
  - destruct over as [oa od oau of' orl ol oe op os oapi].
    unfold Merge.mergeSettings. cbn.
    f_equal;
      try (match goal with
           | |- default _ ?o = default _ ?o => destruct o; reflexivity
           end).
    + destruct oau as [a|]; [|reflexivity]. cbn. f_equal.
      by destruct (Settings.allowedDomains a).
    + destruct oe as [e|]; [|reflexivity]. cbn. f_equal.
      by destruct (Settings.replyTo e).
    + destruct oapi as [a|]; reflexivity.
Qed.

(** X5: the optional fields of a group cannot be cleared by an override:
    an auth override without [allowedDomains] keeps the allowed domains of
    the base, and an email override without [replyTo] keeps the reply
    address of the base; an override that has the field wins. *)
Theorem X5_mergeSettings_optional_fields base over a :
  Merge.auth over = Some a ->
  (Settings.allowedDomains a = None ->
   Settings.allowedDomains (Settings.auth (Merge.mergeSettings base over))
     = Settings.allowedDomains (Settings.auth base)) /\
  (forall d, Settings.allowedDomains a = Some d ->
   Settings.allowedDomains (Settings.auth (Merge.mergeSettings base over))
     = Some d) /\
  Settings.sessionDuration (Settings.auth (Merge.mergeSettings base over))
    = Settings.sessionDuration a /\
  (forall e, Merge.email over = Some e -> Settings.replyTo e = None ->
   Settings.replyTo (Settings.email (Merge.mergeSettings base over))
     = Settings.replyTo (Settings.email base)).
Proof.
  intros Ha. cbn. rewrite Ha. cbn.
  split; [by intros ->|]. split; [by intros d ->|]. split; [reflexivity|].
  intros e -> He. cbn. by rewrite He.
Qed.

Lemma X5_mergeSettings_optional_fields_witness :
  Settings.allowedDomains
    (Settings.auth (Merge.mergeSettings Settings.developmentSettings
                                        overrides_auth_plain))
  = Some ["localhost"; "127.0.0.1"].
Proof.
  destruct (X5_mergeSettings_optional_fields Settings.developmentSettings
              overrides_auth_plain _ eq_refl) as (Hkeep & _).
  exact (Hkeep eq_refl).
Defined.

(** ** Feature flags: rules, rollout, the flag table *)

Lemma environment_check_passes flag :
  environments_pass flag ->
  match Flags.environments flag with
  | Some envs => (0 <? length envs)%nat && negb (Str.mem Flags.currentEnv envs)
  | None => false
  end = false.
Proof.
  unfold environments_pass. destruct (Flags.environments flag) as [envs|]; [|done].
  intros [-> | ->]; [reflexivity|]. cbn [negb]. apply andb_false_r.
Qed.

Lemma evaluateUserRules_match rules user rule :
  rule ∈ rules -> Flags.matchesUserRule rule user = true ->
  Flags.evaluateUserRules rules user = Some true.
Proof.
  induction rules as [|r rest IH]; intros Hin Hm; [by apply elem_of_nil in Hin|].
  simpl. apply elem_of_cons in Hin as [<- | Hin]; [by rewrite Hm|].
  destruct (Flags.matchesUserRule r user); [reflexivity|by apply IH].
Qed.

(** X6: a user who matches one of the rules of an enabled flag gets the
    flag whatever the rollout percentage says, also at 0 percent; only the
    global switch and the environment check come before the rules. *)
Theorem X6_matching_rule_beats_rollout ff k flag rules rule user :
  Flags.flags ff !! k = Some flag ->
  Flags.enabled flag = true ->
  environments_pass flag ->
  Flags.userRules flag = Some rules ->
  rule ∈ rules ->
  Flags.matchesUserRule rule user = true ->
  Flags.isEnabled ff k (Some user) = true.
Proof.
  intros Hk Hen Henv Hr Hin Hm. unfold Flags.isEnabled.
  rewrite Hk, Hen, Hr, (environment_check_passes flag Henv). cbn [negb].
  by rewrite (evaluateUserRules_match rules user rule Hin Hm).
Qed.

Lemma X6_matching_rule_beats_rollout_witness :
  Flags.rolloutPercentage flag_beta_rollout0 = Some 0 /\
  Flags.isEnabled (Flags.new production_config [flag_beta_rollout0])
    "beta" (Some plain_user) = true.
Proof.
  split; [reflexivity|].
  eapply (X6_matching_rule_beats_rollout _ "beta" flag_beta_rollout0);
    [reflexivity | reflexivity | exact I | reflexivity
    | apply list_elem_of_here | reflexivity].
Defined.




(** X8: in the rollout, a request without a user, a user whose id is the
    empty string and a user whose id is the string 'anonymous' all fall in
    the same bucket of a flag. *)
Theorem X8_anonymous_bucket k p (u : User.t) :
  User.id u = "" \/ User.id u = "anonymous" ->
  Flags.shouldRolloutToUser k (Some u) p = Flags.shouldRolloutToUser k None p.
Proof.
  intros Hid. unfold Flags.shouldRolloutToUser.
  by destruct Hid as [-> | ->].
Qed.

Lemma X8_anonymous_bucket_witness :
  Flags.shouldRolloutToUser "half" (Some anonymous_named_user) 50
  = Flags.shouldRolloutToUser "half" None 50.
Proof. apply X8_anonymous_bucket. right. reflexivity. Defined.

Lemma last_cons_from_option {A} (x : A) l :
  last (x :: l) = Some (default x (last l)).
Proof. rewrite last_cons. by destruct (last l). Qed.

Lemma loadFlags_lookup fs : forall ff k,
  Flags.flags (Flags.loadFlags fs ff) !! k
  = match last (filter (fun f => Flags.key f = k) fs) with
    | Some f => Some f
    | None => Flags.flags ff !! k
    end.
Proof.
  induction fs as [|x xs IH]; intros ff k; [reflexivity|].
  change (Flags.loadFlags (x :: xs) ff) with (Flags.loadFlags xs (Flags.setFlag x ff)).
  rewrite IH. cbn [Flags.setFlag Flags.flags].
  destruct (decide (Flags.key x = k)) as [Hx|Hx].
  - rewrite filter_cons_True by done. rewrite last_cons_from_option.
    rewrite Hx, lookup_insert_eq. by destruct (last _).
  - rewrite filter_cons_False by done. by rewrite lookup_insert_ne.
Qed.

(** X9: the constructor loads the initial flags in order, so of several
    flags with one key the last one is the flag of that key, and a key no
    initial flag has is unknown (and not enabled for anybody). *)
Theorem X9_initial_flags_last_wins config fs k :
  Flags.getFlag k (Flags.new config fs)
    = last (filter (fun f => Flags.key f = k) fs) /\
  (filter (fun f => Flags.key f = k) fs = [] ->
   forall user, Flags.isEnabled (Flags.new config fs) k user = false).
Proof.
  assert (Hl : Flags.flags (Flags.new config fs) !! k
               = last (filter (fun f => Flags.key f = k) fs)).
  { unfold Flags.new. rewrite loadFlags_lookup. cbn [Flags.flags].
    rewrite lookup_empty. by destruct (last _). }
  split; [exact Hl|].
  intros Hnone user. unfold Flags.isEnabled. by rewrite Hl, Hnone.
Qed.

(** X10: [setFlag] and [removeFlag] touch one key: the decision for every
    other key is what it was; after [removeFlag] the key is unknown and
    off for everybody; after [setFlag] the flag stored under its key is
    the new one, whatever was there. *)
Theorem X10_setFlag_removeFlag_one_key ff flag k user :
  (k <> Flags.key flag ->
   Flags.isEnabled (Flags.setFlag flag ff) k user = Flags.isEnabled ff k user) /\
  (forall k', k' <> k ->
   Flags.isEnabled (Flags.removeFlag k ff) k' user = Flags.isEnabled ff k' user) /\
  Flags.isEnabled (Flags.removeFlag k ff) k user = false /\
  Flags.getFlag (Flags.key flag) (Flags.setFlag flag ff) = Some flag /\
  Flags.removeFlag (Flags.key flag) (Flags.setFlag flag ff)
    = Flags.removeFlag (Flags.key flag) ff.
Proof.
  split; [|split; [|split; [|split]]].
  - intros Hne. unfold Flags.isEnabled, Flags.setFlag. cbn [Flags.flags].
    by rewrite lookup_insert_ne.
  - intros k' Hne. unfold Flags.isEnabled, Flags.removeFlag. cbn [Flags.flags].
    by rewrite lookup_delete_ne.
  - unfold Flags.isEnabled, Flags.removeFlag. cbn [Flags.flags].
    by rewrite lookup_delete_eq.
  - unfold Flags.getFlag, Flags.setFlag. cbn [Flags.flags].
    apply lookup_insert_eq.
  - unfold Flags.removeFlag, Flags.setFlag. cbn [Flags.flags].
    by rewrite delete_insert_eq.
Qed.

Lemma default_flag_lookup config :
  let ff := Flags.createFeatureFlags config in
  Flags.flags ff !! "registration"
    = Some (default flag_half (Flags.createDefaultFeatureFlags config !! 0%nat)) /\
  Flags.flags ff !! "oauth"
    = Some (default flag_half (Flags.createDefaultFeatureFlags config !! 1%nat)) /\
  Flags.flags ff !! "maintenance_mode"
    = Some (default flag_half (Flags.createDefaultFeatureFlags config !! 2%nat)) /\
  Flags.flags ff !! "new_ui"
    = Some (default flag_half (Flags.createDefaultFeatureFlags config !! 3%nat)) /\
  Flags.flags ff !! "admin_panel"
    = Some (default flag_half (Flags.createDefaultFeatureFlags config !! 4%nat)) /\
  Flags.flags ff !! "beta_features"
    = Some (default flag_half (Flags.createDefaultFeatureFlags config !! 5%nat)).
Proof.
  cbv zeta. unfold Flags.createFeatureFlags, Flags.new.
  rewrite !loadFlags_lookup. repeat split; reflexivity.
Qed.

(** X11: the default flags, for every configuration and every user (or
    none): 'registration', 'oauth' and 'maintenance_mode' are the feature
    toggles of the configuration; 'new_ui', listed for staging and
    production only, is off; 'admin_panel' and 'beta_features', whose
    rules only add users, are on. *)
Theorem X11_default_flags config user :
  let ff := Flags.createFeatureFlags config in
  Flags.isEnabled ff "registration" user
    = Settings.registration (Config.features config) /\
  Flags.isEnabled ff "oauth" user = Settings.oauth (Config.features config) /\
  Flags.isEnabled ff "maintenance_mode" user
    = Settings.maintenanceMode (Config.features config) /\
  Flags.isEnabled ff "new_ui" user = false /\
  Flags.isEnabled ff "admin_panel" user = true /\
  Flags.isEnabled ff "beta_features" user = true.
Proof.
  cbv zeta.
  destruct (default_flag_lookup config) as (H0 & H1 & H2 & H3 & H4 & H5).
  unfold Flags.isEnabled. rewrite H0, H1, H2, H3, H4, H5.
  cbn [Flags.createDefaultFeatureFlags lookup list_lookup default from_option id
       Flags.enabled Flags.environments Flags.userRules Flags.rolloutPercentage
       negb].
  split; [by destruct user, (Settings.registration _)|].
  split; [by destruct user, (Settings.oauth _)|].
  split; [by destruct user, (Settings.maintenanceMode _)|].
  split; [reflexivity|].
  split.
  - destruct user as [u|]; [|reflexivity].
    by destruct (evaluateUserRules_true_or_null
                   [ {| Flags.type := Flags.T_role; Flags.operator := Flags.Op_equals;
                        Flags.value := Flags.One "admin" |} ] u) as [-> | ->].
  - destruct user as [u|]; [|reflexivity].
    by destruct (evaluateUserRules_true_or_null
                   [ {| Flags.type := Flags.T_email_domain;
                        Flags.operator := Flags.Op_equals;
                        Flags.value := Flags.One "yourcompany.com" |} ] u)
      as [-> | ->].
Qed.

Lemma split_lacks c s : lacks c s -> Str.split c s = [s].
Proof.
  induction s as [|a r IH]; [reflexivity|]. intros [Ha Hr]. simpl.
  destruct (Ascii.eqb_spec a c); [contradiction|]. by rewrite (IH Hr).
Qed.

Lemma split_at c l d :
  lacks c l -> Str.split c (l +:+ String c d) = l :: Str.split c d.
Proof.
  induction l as [|a r IH]; intros Hl.
  - simpl. by rewrite Ascii.eqb_refl.
  - destruct Hl as [Ha Hr]. simpl.
    destruct (Ascii.eqb_spec a c); [contradiction|]. by rewrite (IH Hr).
Qed.

(** X12: for an 'email_domain' rule the value compared is what follows
    the '@' of the address: for [local@domain] (one '@') it is [domain],
    and for an address without any '@' it is the empty string. *)
Theorem X12_email_domain_rule (u : User.t) op v :
  (forall l d, User.email u = l +:+ "@" +:+ d ->
               lacks "@"%char l -> lacks "@"%char d ->
               Flags.matchesUserRule (rule_domain op v) u
                 = Flags.matchesValue d op v) /\
  (lacks "@"%char (User.email u) ->
   Flags.matchesUserRule (rule_domain op v) u = Flags.matchesValue "" op v).
Proof.
  split.
  - intros l d He Hl Hd. unfold Flags.matchesUserRule, rule_domain.
    cbn [Flags.type Flags.operator Flags.value]. rewrite He.
    change ("@" +:+ d) with (String "@"%char d).
    rewrite (split_at _ l d Hl), (split_lacks _ d Hd). reflexivity.
  - intros He. unfold Flags.matchesUserRule, rule_domain.
    cbn [Flags.type Flags.operator Flags.value].
    rewrite (split_lacks _ _ He). reflexivity.
Qed.

Lemma X12_email_domain_rule_witness :
  Flags.matchesUserRule (rule_domain Flags.Op_equals (Flags.One "example.com"))
    plain_user
  = Flags.matchesValue "example.com" Flags.Op_equals (Flags.One "example.com").
Proof.
  destruct (X12_email_domain_rule plain_user Flags.Op_equals
              (Flags.One "example.com")) as (Hd & _).
  apply (Hd "jo" "example.com"); [reflexivity | |]; simpl; repeat split;
    discriminate.
Defined.

Lemma substring_zero n s : String.substring n 0 s = "".
Proof.
  revert s. induction n as [|n IH]; intros s; destruct s; simpl; auto.
Qed.

(** X13: a rule whose value is the empty string, with the operator
    'contains', 'starts_with' or 'ends_with', matches every user, whatever
    the rule looks at; a rule with a list where the operator wants a
    string, or a string where 'in' wants a list, matches nobody. *)
Theorem X13_rule_value_edges t (u : User.t) x l s :
  Flags.matchesUserRule
    {| Flags.type := t; Flags.operator := Flags.Op_contains;
       Flags.value := Flags.One "" |} u = true /\
  Flags.matchesUserRule
    {| Flags.type := t; Flags.operator := Flags.Op_starts_with;
       Flags.value := Flags.One "" |} u = true /\
  Flags.matchesUserRule
    {| Flags.type := t; Flags.operator := Flags.Op_ends_with;
       Flags.value := Flags.One "" |} u = true /\
  Flags.matchesValue x Flags.Op_equals (Flags.Many l) = false /\
  Flags.matchesValue x Flags.Op_contains (Flags.Many l) = false /\
  Flags.matchesValue x Flags.Op_in (Flags.One s) = false.
Proof.
  unfold Flags.matchesUserRule.
  cbn [Flags.type Flags.operator Flags.value Flags.matchesValue].
  set (uv := match t with
             | Flags.T_user_id => _ | Flags.T_email => _
             | Flags.T_role => _ | Flags.T_email_domain => _ end).
  split; [by destruct uv|]. split; [by destruct uv|].
  split; [|done].
  unfold Str.endsWith. cbn [String.length]. rewrite Nat.sub_0_r.
  by rewrite substring_zero.
Qed.

(** ** List-shaping helpers: pages, order, search *)

Lemma page_items_slice {U} (xs : list U) page limit :
  page_items xs page limit
  = Service.slice xs ((page - 1) * limit) ((page - 1) * limit + limit).
Proof.
  unfold page_items, Service.applyPagination, Service.alloc.
  cbn [lookup list_lookup mbind option_bind Service.data length].
  reflexivity.
Qed.

Lemma page_count_ceil {U} (xs : list U) page limit :
  page_count xs page limit = Service.ceil_div (Z.of_nat (length xs)) limit.
Proof. reflexivity. Qed.

Lemma slice_window {U} (xs : list U) a l :
  0 <= a -> 0 <= l ->
  Service.slice xs a (a + l) = take (Z.to_nat l) (drop (Z.to_nat a) xs).
Proof.
  intros Ha Hl. unfold Service.slice, Service.relative_index.
  destruct (Z.ltb_spec a 0); [lia|]. destruct (Z.ltb_spec (a + l) 0); [lia|].
  destruct (Z_le_gt_dec (Z.of_nat (length xs)) a) as [Hge|Hlt].
  - rewrite (drop_ge xs (Z.to_nat a)) by lia. rewrite take_nil.
    rewrite !Z.min_r by lia. by rewrite Z.sub_diag.
  - rewrite (Z.min_l a) by lia.
    destruct (Z_le_gt_dec (a + l) (Z.of_nat (length xs))).
    + rewrite Z.min_l by lia. f_equal. lia.
    + rewrite Z.min_r by lia.
      rewrite !take_ge; [done| |]; rewrite length_drop; lia.
Qed.

Lemma page_items_window {U} (xs : list U) (i : nat) limit :
  0 <= limit ->
  page_items xs (Z.of_nat (S i)) limit
  = take (Z.to_nat limit) (drop (i * Z.to_nat limit) xs).
Proof.
  intros Hl. rewrite page_items_slice.
  replace (Z.of_nat (S i) - 1) with (Z.of_nat i) by lia.
  rewrite slice_window by lia. do 2 f_equal. lia.
Qed.

Lemma all_pages_take {U} (xs : list U) limit n :
  0 <= limit ->
  all_pages xs limit n = take (n * Z.to_nat limit) xs.
Proof.
  intros Hl. unfold all_pages. induction n as [|n IH]; [reflexivity|].
  rewrite seq_S, map_app, concat_app, IH. cbn [map concat plus].
  rewrite app_nil_r, page_items_window by done.
  rewrite take_take_drop. f_equal. lia.
Qed.

Lemma ceil_div_bounds total limit :
  0 <= total -> 0 < limit ->
  exists n, Service.ceil_div total limit = Service.Fin n /\
            0 <= n /\ total <= n * limit /\ n * limit < total + limit.
Proof.
  intros Ht Hl. unfold Service.ceil_div.
  destruct (Z.eqb_spec limit 0); [lia|].
  eexists. split; [reflexivity|].
  pose proof (Z.div_mod (- total) limit ltac:(lia)) as Hd.
  pose proof (Z.mod_pos_bound (- total) limit Hl) as Hm.
  nia.
Qed.

(** X14: with a positive limit the pages partition the array: there are
    [ceil(total / limit)] of them, each holds at most [limit] items, the
    pages before the last hold exactly [limit], the pages 1 to [pages] one
    after the other are the array, and every page after the last is empty
    (no error). *)
Theorem X14_pages_partition {U} (xs : list U) limit :
  0 < limit ->
  exists n : nat,
    (forall page, page_count xs page limit = Service.Fin (Z.of_nat n)) /\
    Z.of_nat (length xs) <= Z.of_nat n * limit < Z.of_nat (length xs) + limit /\
    all_pages xs limit n = xs /\
    (forall page, 1 <= page ->
       Z.of_nat (length (page_items xs page limit)) <= limit) /\
    (forall page, 1 <= page < Z.of_nat n ->
       Z.of_nat (length (page_items xs page limit)) = limit) /\
    (forall page, Z.of_nat n < page -> page_items xs page limit = []).
Proof.
  intros Hl.
  destruct (ceil_div_bounds (Z.of_nat (length xs)) limit) as (m & Hm & H0 & H1 & H2);
    [lia|lia|].
  exists (Z.to_nat m). rewrite Z2Nat.id by lia.
  split; [intros page; by rewrite page_count_ceil|].
  split; [lia|]. split.
  - rewrite all_pages_take by lia. apply take_ge. nia.
  - assert (Hwin : forall page, 1 <= page ->
        page_items xs page limit
        = take (Z.to_nat limit) (drop (Z.to_nat (page - 1) * Z.to_nat limit) xs)).
    { intros page Hp.
      replace page with (Z.of_nat (S (Z.to_nat (page - 1)))) at 1 by lia.
      by rewrite page_items_window by lia. }
    split; [|split].
    + intros page Hp. rewrite (Hwin page Hp), length_take. lia.
    + intros page Hp. rewrite (Hwin page) by lia.
      rewrite length_take, length_drop. nia.
    + intros page Hp. rewrite (Hwin page) by lia.
      rewrite drop_ge; [apply take_nil|]. nia.
Qed.

Lemma X14_pages_partition_witness :
  exists n : nat,
    page_count (seq 1 25) 3 10 = Service.Fin (Z.of_nat n) /\
    all_pages (seq 1 25) 10 n = seq 1 25.
Proof.
  destruct (X14_pages_partition (seq 1 25) 10 ltac:(lia))
    as (n & Hc & _ & Hall & _).
  exists n. split; [apply Hc|exact Hall].
Defined.

(** X15: the degenerate arguments of [applyPagination], none of which is
    an error: page 0 gives an empty page; limit 0 gives an empty page and
    a page count that is not a number for an empty array and infinite
    otherwise; a negative limit [-m] on page 1 gives the array without its
    last [m] items. *)
Theorem X15_pagination_degenerate {U} (xs : list U) :
  (forall limit, 0 < limit -> page_items xs 0 limit = []) /\
  (forall page, page_items xs page 0 = [] /\
                page_count xs page 0
                = if decide (xs = []) then Service.NaN else Service.PosInfinity) /\
  (forall m : nat, (0 < m)%nat ->
     page_items xs 1 (- Z.of_nat m) = take (length xs - m) xs).
Proof.
  split; [|split].
  - intros limit Hl. rewrite page_items_slice.
    unfold Service.slice, Service.relative_index.
    destruct (Z.ltb_spec ((0 - 1) * limit) 0); [|lia].
    destruct (Z.ltb_spec ((0 - 1) * limit + limit) 0); [lia|].
    replace (Z.to_nat _) with 0%nat by lia. reflexivity.
  - intros page. split.
    + rewrite page_items_slice. rewrite !Z.mul_0_r, Z.add_0_r.
      unfold Service.slice. by rewrite Z.sub_diag.
    + rewrite page_count_ceil. unfold Service.ceil_div. cbn [Z.eqb].
      destruct xs; reflexivity.
  - intros m Hm. rewrite page_items_slice.
    replace ((1 - 1) * - Z.of_nat m) with 0 by lia.
    replace (0 + - Z.of_nat m) with (- Z.of_nat m) by lia.
    unfold Service.slice, Service.relative_index.
    destruct (Z.ltb_spec 0 0); [lia|].
    destruct (Z.ltb_spec (- Z.of_nat m) 0); [|lia].
    rewrite Z.min_l by lia. rewrite drop_0. f_equal. lia.
Qed.

Lemma X15_pagination_degenerate_witness :
  page_items [1; 2; 3] 1 (-1) = [1; 2].
Proof.
  destruct (X15_pagination_degenerate [1; 2; 3]) as (_ & _ & Hneg).
  exact (Hneg 1%nat ltac:(lia)).
Defined.

Lemma sorted_items_sort `{Runtime} xs sortBy sortOrder :
  sorted_items xs sortBy sortOrder
  = Service.sort (Service.comparator sortBy (default Service.desc sortOrder)) xs.
Proof. reflexivity. Qed.

Lemma comparator_num_asc `{Runtime} sortBy a b :
  has_num_key sortBy a -> has_num_key sortBy b ->
  (0 <? Service.comparator sortBy Service.asc a b)
  = (num_key sortBy b <? num_key sortBy a).
Proof.
  intros [x Hx] [y Hy]. unfold Service.comparator, num_key.
  rewrite Hx, Hy. unfold Service.js_gt, Service.js_lt. cbn [Service.ToNumber].
  destruct (Z.ltb_spec y x); [reflexivity|].
  destruct (Z.ltb_spec x y); reflexivity.
Qed.

Lemma comparator_num_desc `{Runtime} sortBy a b :
  has_num_key sortBy a -> has_num_key sortBy b ->
  (0 <? Service.comparator sortBy Service.desc a b)
  = (num_key sortBy a <? num_key sortBy b).
Proof.
  intros [x Hx] [y Hy]. unfold Service.comparator, num_key.
  rewrite Hx, Hy. unfold Service.js_gt, Service.js_lt. cbn [Service.ToNumber].
  destruct (Z.ltb_spec y x); [by destruct (Z.ltb_spec x y); [lia|]|].
  destruct (Z.ltb_spec x y); reflexivity.
Qed.

(** Insertion by a comparator that orders the keys [f] keeps a list whose
    keys ascend ascending, and keeps the order of the items of one key. *)
Section KeyedInsertion.
Context {U : Type} (cmp : U -> U -> Z) (f : U -> Z) (P : U -> Prop).
Hypothesis cmp_key :
  forall x y, P x -> P y -> (0 <? cmp x y) = (f y <? f x).

Lemma insert_sorted_ascending x l :
  P x -> Forall P l -> ascending (map f l) ->
  ascending (map f (Service.insert_sorted cmp x l)).
Proof.
  intros Hx. induction l as [|y l IH]; intros Hl Hs.
  - simpl. split; [constructor|exact I].
  - apply Forall_cons in Hl as [Hy Hl]. destruct Hs as [Hys Hs].
    cbn [Service.insert_sorted]. rewrite (cmp_key x y Hx Hy).
    destruct (Z.ltb_spec (f y) (f x)) as [Hlt|Hge].
    + cbn [map ascending]. split; [|by apply IH].
      rewrite insert_sorted_Permutation. constructor; [lia|exact Hys].
    + cbn [map ascending]. split; [|split; [exact Hys|exact Hs]].
      constructor; [exact Hge|].
      eapply Forall_impl; [exact Hys|]. intros z Hz. lia.
Qed.

Lemma sort_ascending l :
  Forall P l -> ascending (map f (Service.sort cmp l)).
Proof.
  induction l as [|x l IH]; intros Hl; [exact I|].
  apply Forall_cons in Hl as [Hx Hl]. cbn [Service.sort foldr].
  apply insert_sorted_ascending; [exact Hx| |by apply IH].
  fold (Service.sort cmp l). by rewrite sort_Permutation.
Qed.

Lemma insert_sorted_same_key v x l :
  P x -> Forall P l ->
  filter (fun y => f y = v) (Service.insert_sorted cmp x l)
  = filter (fun y => f y = v) (x :: l).
Proof.
  intros Hx. induction l as [|y l IH]; intros Hl; [reflexivity|].
  apply Forall_cons in Hl as [Hy Hl].
  cbn [Service.insert_sorted]. rewrite (cmp_key x y Hx Hy).
  destruct (Z.ltb_spec (f y) (f x)) as [Hlt|Hge]; [|reflexivity].
  rewrite filter_cons, (IH Hl), !filter_cons.
  destruct (decide (f y = v)), (decide (f x = v)); try reflexivity. lia.
Qed.

Lemma sort_same_key v l :
  Forall P l ->
  filter (fun y => f y = v) (Service.sort cmp l) = filter (fun y => f y = v) l.
Proof.
  induction l as [|x l IH]; intros Hl; [reflexivity|].
  apply Forall_cons in Hl as [Hx Hl]. cbn [Service.sort foldr].
  rewrite insert_sorted_same_key; [|exact Hx|].
  - rewrite !filter_cons. fold (Service.sort cmp l). by rewrite (IH Hl).
  - fold (Service.sort cmp l). by rewrite sort_Permutation.
Qed.
End KeyedInsertion.

(** X16: when the sort key of every item is a number, [applySorting]
    leaves the array ordered by that key: ascending for 'asc', descending
    for 'desc' and when the order is left out. *)
Theorem X16_sorted_by_number `{Runtime} (xs : list Service.Item) sortBy :
  Forall (has_num_key sortBy) xs ->
  ascending (map (num_key sortBy) (sorted_items xs sortBy (Some Service.asc))) /\
  ascending (map (fun it => - num_key sortBy it)
                 (sorted_items xs sortBy (Some Service.desc))) /\
  sorted_items xs sortBy None = sorted_items xs sortBy (Some Service.desc).
Proof.
  intros Hn. rewrite !sorted_items_sort. split; [|split; [|reflexivity]].
  - apply (sort_ascending _ _ (has_num_key sortBy)); [|exact Hn].
    intros x y Hx Hy. by apply comparator_num_asc.
  - apply (sort_ascending _ _ (has_num_key sortBy)); [|exact Hn].
    intros x y Hx Hy. rewrite comparator_num_desc by done.
    destruct (Z.ltb_spec (num_key sortBy x) (num_key sortBy y));
      destruct (Z.ltb_spec (- num_key sortBy y) (- num_key sortBy x)); lia || done.
Qed.

Lemma has_num_key_item_kn k n : has_num_key "k" (item_kn k n).
Proof. exists k. reflexivity. Qed.

Lemma X16_sorted_by_number_witness :
  ascending (map (num_key "k")
    (sorted_items [item_kn 3 0; item_kn 1 1; item_kn 2 2] "k" (Some Service.asc))).
Proof.
  apply (X16_sorted_by_number [item_kn 3 0; item_kn 1 1; item_kn 2 2] "k").
  repeat constructor; apply has_num_key_item_kn.
Defined.

(** X17: the sort is stable on numeric keys: the items that share a key
    come out in the order they had, in both directions. *)
Theorem X17_sort_keeps_ties `{Runtime} (xs : list Service.Item) sortBy
    sortOrder v :
  Forall (has_num_key sortBy) xs ->
  filter (fun it => num_key sortBy it = v) (sorted_items xs sortBy sortOrder)
  = filter (fun it => num_key sortBy it = v) xs.
Proof.
  intros Hn. rewrite sorted_items_sort.
  destruct (default Service.desc sortOrder).
  - apply (sort_same_key _ _ (has_num_key sortBy)); [|exact Hn].
    intros x y Hx Hy. by apply comparator_num_asc.
  - transitivity (filter (fun it => - num_key sortBy it = - v)
                    (Service.sort (Service.comparator sortBy Service.desc) xs)).
    { apply list_filter_iff. intros it. lia. }
    rewrite (sort_same_key _ (fun it => - num_key sortBy it) (has_num_key sortBy));
      [apply list_filter_iff; intros it; lia| |exact Hn].
    intros x y Hx Hy. rewrite comparator_num_desc by done.
    destruct (Z.ltb_spec (num_key sortBy x) (num_key sortBy y));
      destruct (Z.ltb_spec (- num_key sortBy y) (- num_key sortBy x)); lia || done.
Qed.

Lemma X17_sort_keeps_ties_witness :
  filter (fun it => num_key "k" it = 1)
    (sorted_items [item_kn 1 0; item_kn 0 1; item_kn 1 2] "k" None)
  = filter (fun it => num_key "k" it = 1) [item_kn 1 0; item_kn 0 1; item_kn 1 2].
Proof.
  apply (X17_sort_keeps_ties [item_kn 1 0; item_kn 0 1; item_kn 1 2] "k" None 1).
  repeat constructor; apply has_num_key_item_kn.
Defined.

Lemma insert_sorted_never_greater {U} (cmp : U -> U -> Z) x l :
  Forall (fun y => (0 <? cmp x y) = false) l ->
  Service.insert_sorted cmp x l = x :: l.
Proof.
  destruct l as [|y l]; [reflexivity|]. intros Hl.
  apply Forall_cons in Hl as [Hy _]. cbn [Service.insert_sorted]. by rewrite Hy.
Qed.

(** X18: sorting by a field that no item has leaves the array in the
    order it was, in both directions (an absent key compares as neither
    greater nor less). *)
Theorem X18_sort_absent_key `{Runtime} (xs : list Service.Item) sortBy
    sortOrder :
  Forall (fun it : Service.Item => it !! sortBy = None) xs ->
  sorted_items xs sortBy sortOrder = xs.
Proof.
  intros Hn. rewrite sorted_items_sort.
  induction xs as [|x xs IH]; [reflexivity|].
  apply Forall_cons in Hn as [Hx Hxs]. cbn [Service.sort foldr].
  fold (Service.sort (Service.comparator sortBy (default Service.desc sortOrder)) xs).
  rewrite (IH Hxs). apply insert_sorted_never_greater.
  eapply Forall_impl; [exact Hxs|]. intros y Hy.
  unfold Service.comparator, Service.get. rewrite Hx, Hy.
  by destruct (default Service.desc sortOrder).
Qed.

Lemma X18_sort_absent_key_witness :
  sorted_items [item_kn 2 0; item_kn 1 1] "missing" None
  = [item_kn 2 0; item_kn 1 1].
Proof.
  apply (X18_sort_absent_key [item_kn 2 0; item_kn 1 1] "missing" None).
  repeat constructor.
Defined.

Lemma found_items_filter xs term fields :
  term <> "" ->
  found_items xs term fields
  = filter (fun it => Service.matches_term (Str.toLowerCase term) fields it = true) xs.
Proof.
  intros Hne. unfold found_items, Service.applyTextSearch, Service.alloc.
  cbn [lookup list_lookup mbind option_bind].
  destruct (String.eqb_spec term ""); [contradiction|].
  cbn [length lookup list_lookup app default from_option id].
  induction xs as [|x xs IH]; [reflexivity|].
  cbn [List.filter]. rewrite filter_cons.
  destruct (Service.matches_term _ fields x) eqn:Hm.
  - rewrite decide_True by done. by rewrite IH.
  - rewrite decide_False by (by intros ?). exact IH.
Qed.

Lemma prefix_lower t : forall s,
  String.prefix t s = true ->
  String.prefix (Str.toLowerCase t) (Str.toLowerCase s) = true.
Proof.
  induction t as [|a t IH]; intros s Hp; [by destruct s|].
  destruct s as [|b s]; [discriminate|]. simpl in Hp. simpl.
  destruct (Ascii.ascii_dec a b) as [->|]; [|discriminate].
  destruct (Ascii.ascii_dec (Str.lower_ascii b) (Str.lower_ascii b));
    [by apply IH|contradiction].
Qed.

Lemma includes_lower t s :
  Str.includes s t = true ->
  Str.includes (Str.toLowerCase s) (Str.toLowerCase t) = true.
Proof.
  induction s as [|b s IH]; simpl; intros Hi.
  - rewrite orb_false_r in Hi. apply (prefix_lower t "") in Hi.
    simpl in Hi. by rewrite Hi.
  - apply orb_true_iff in Hi as [Hp|Hi].
    + apply (prefix_lower t (String b s)) in Hp. simpl in Hp. by rewrite Hp.
    + rewrite (IH Hi). apply orb_true_r.
Qed.

(** X19: [applyTextSearch] with a non-empty term keeps, in their order,
    exactly the items that match; it finds every item one of whose
    searched fields is a string containing the term, whatever the case of
    either; two terms that differ only in case find the same items; and
    searching the result again with the same term changes nothing. *)
Theorem X19_text_search (xs : list Service.Item) term fields :
  term <> "" ->
  found_items xs term fields
    = filter (fun it => Service.matches_term (Str.toLowerCase term) fields it = true)
             xs /\
  (forall it field s,
     it ∈ xs -> In field fields -> it !! field = Some (Service.PStr s) ->
     Str.includes s term = true ->
     it ∈ found_items xs term fields) /\
  (forall term', term' <> "" ->
     Str.toLowerCase term' = Str.toLowerCase term ->
     found_items xs term' fields = found_items xs term fields) /\
  found_items (found_items xs term fields) term fields
    = found_items xs term fields.
Proof.
  intros Hne. split; [by apply found_items_filter|]. split; [|split].
  - intros it field s Hin Hf Hs Hinc. rewrite found_items_filter by done.
    apply list_elem_of_filter. split; [|exact Hin].
    unfold Service.matches_term. apply existsb_exists. exists field.
    split; [exact Hf|]. unfold Service.get. rewrite Hs.
    cbn [default from_option id Service.String_of]. by apply includes_lower.
  - intros term' Hne' Hl. rewrite !found_items_filter by done. by rewrite Hl.
  - rewrite !found_items_filter by done.
    rewrite list_filter_filter. apply list_filter_iff. intros it. tauto.
Qed.

Lemma X19_text_search_witness :
  item_name "Ada Lovelace"
    ∈ found_items [item_name "Ada Lovelace"; item_name "Alan Turing"]
        "LOVE" ["name"].
Proof.
  destruct (X19_text_search [item_name "Ada Lovelace"; item_name "Alan Turing"]
              "Love" ["name"] ltac:(discriminate)) as (_ & Hfound & Hcase & _).
  rewrite (Hcase "LOVE"); [|discriminate|reflexivity].
  apply (Hfound _ "name" "Ada Lovelace");
    [apply list_elem_of_here | left; reflexivity | reflexivity | reflexivity].
Defined.

(** X20: edge cases of the search with a non-empty term: without any
    field to search nothing is found; an item that lacks a searched field
    is searched as if the field held the text 'undefined', so it is found
    by every term contained in that word. *)
Theorem X20_text_search_edges (xs : list Service.Item) term :
  term <> "" ->
  found_items xs term [] = [] /\
  (forall it fields field,
     it ∈ xs -> In field fields -> it !! field = None ->
     Str.includes "undefined" (Str.toLowerCase term) = true ->
     it ∈ found_items xs term fields).
Proof.
  intros Hne. split.
  - rewrite found_items_filter by done.
    induction xs as [|x xs IH]; [reflexivity|].
    rewrite filter_cons_False; [exact IH|]. by intros ?.
  - intros it fields field Hin Hf Hnone Hinc. rewrite found_items_filter by done.
    apply list_elem_of_filter. split; [|exact Hin].
    unfold Service.matches_term. apply existsb_exists. exists field.
    split; [exact Hf|]. unfold Service.get. rewrite Hnone. exact Hinc.
Qed.

Lemma X20_text_search_edges_witness :
  item_name "Ada" ∈ found_items [item_name "Ada"] "Fine" ["email"].
Proof.
  destruct (X20_text_search_edges [item_name "Ada"] "Fine" ltac:(discriminate))
    as (_ & Hundef).
  apply (Hundef _ ["email"] "email");
    [apply list_elem_of_here | left; reflexivity | reflexivity | reflexivity].
Defined.

(** ** Service container: further operations and invariants *)

Section ContainerFurther.
Import Container.
Local Open Scope nat_scope.



(** X22: [setUser] changes the user of the one container in place: no
    container is added, the context of that container now holds the user
    (its environment and its self-reference are kept), every other
    container, the registries and the registrations are as before, and so
    is what every token is bound to. *)
Theorem X22_setUser_in_place s c u this :
  containers s !! c = Some this ->
  exists s',
    setUser c u s = Returns tt s' /\
    length (containers s') = length (containers s) /\
    getContext c s'
      = Returns {| env := env (context this);
                   container := container (context this);
                   user := Some u |} s' /\
    (forall c', c' <> c -> containers s' !! c' = containers s !! c') /\
    registries s' = registries s /\
    registrations s' = registrations s /\
    allocated s' = allocated s /\
    (forall c' token, entry s' c' token = entry s c' token).
Proof.
  intros Hc. unfold setUser. rewrite Hc. eexists. split; [reflexivity|].
  assert (Hlt : c < length (containers s)) by (by eapply lookup_lt_Some).
  unfold getContext, entry, set_containers.
  cbn [containers registries registrations allocated].
  split; [by rewrite length_insert|].
  split; [by rewrite list_lookup_insert_eq by done|].
  split; [intros c' Hne; by rewrite list_lookup_insert_ne|].
  split; [reflexivity|]. split; [reflexivity|]. split; [reflexivity|].
  intros c' token.
  destruct (decide (c' = c)) as [->|Hne].
  - rewrite list_lookup_insert_eq by done. by rewrite Hc.
  - by rewrite list_lookup_insert_ne.
Qed.

Lemma X22_setUser_in_place_witness :
  exists s',
    setUser 0 plain_user store_values = Returns tt s' /\
    length (containers s') = 1 /\
    entry s' 0 "config" = entry store_values 0 "config".
Proof.
  destruct (X22_setUser_in_place store_values 0 plain_user _ eq_refl)
    as (s' & Hs & Hlen & _ & _ & _ & _ & _ & He).
  exists s'. split; [exact Hs|]. split; [exact Hlen|apply He].
Defined.

Lemma run_Resolve f c token k s :
  run (S f) (Resolve c token k) s
  = bind (resolve f c token s) (fun v s' => run f (k v) s').
Proof. reflexivity. Qed.

Lemma run_GetUser f c k s :
  run (S f) (GetUser c k) s
  = bind (getContext c s) (fun ctx s' => run f (k (user ctx)) s').
Proof. reflexivity. Qed.

Lemma resolve_construct_throws fuel s c token r reg body e s1 :
  entry s c token = Some r ->
  registrations s !! r = Some reg ->
  instance reg = VUndefined ->
  constructor reg = Class body ->
  run fuel (body c) (bump s) = Throws e s1 ->
  resolve fuel c token s = Throws e s1.
Proof.
  intros He Hr Hi Hctor Hrun.
  apply entry_Some in He as (this & g & Hc & Hg & Ht).
  unfold resolve, resolve_with. rewrite Hc, Hg, Ht, Hr, Hi, Hctor.
  rewrite andb_false_r. cbn [is_undefined negb construct_with].
  by rewrite Hrun.
Qed.

(** X23: when the constructor of a service throws, [resolve] throws the
    same exception and leaves the store as the constructor left it:
    nothing is cached for the token, the registration keeps its
    constructor and its singleton flag, and the address of the object
    that was being constructed is not used again. *)
Theorem X23_failed_construction_not_cached fuel s c token r reg body e s1 :
  entry s c token = Some r ->
  registrations s !! r = Some reg ->
  instance reg = VUndefined ->
  constructor reg = Class body ->
  run fuel (body c) (bump s) = Throws e s1 ->
  resolve fuel c token s = Throws e s1 /\
  (exists reg', registrations s1 !! r = Some reg' /\
                constructor reg' = Class body /\
                singleton reg' = singleton reg) /\
  allocated s < allocated s1.
Proof.
  intros He Hr Hi Hctor Hrun.
  split; [by eapply resolve_construct_throws|].
  - pose proof (run_Preserved fuel (body c) (bump s)) as Hp. rewrite Hrun in Hp.
    destruct Hp as [Ha Hk]. cbn [bump allocated] in Ha.
    split; [|lia].
    destruct (Hk r reg Hr) as (reg' & Hr' & Hc' & Hs' & _).
    exists reg'. split; [exact Hr'|]. split; [congruence|exact Hs'].
Qed.

Lemma X23_failed_construction_not_cached_witness :
  resolve 3 0 "mailer" store_failing
    = Throws (ServiceError "no connection") (bump store_failing) /\
  resolve 3 0 "mailer" (bump store_failing)
    = Throws (ServiceError "no connection") (bump (bump store_failing)).
Proof.
  split.
  - apply (X23_failed_construction_not_cached 3 store_failing 0 "mailer" 0
             {| constructor := ctor_failing; singleton := true;
                instance := VUndefined |}
             (fun _ => Raise (ServiceError "no connection")));
      reflexivity.
  - apply (X23_failed_construction_not_cached 3 (bump store_failing) 0 "mailer" 0
             {| constructor := ctor_failing; singleton := true;
                instance := VUndefined |}
             (fun _ => Raise (ServiceError "no connection")));
      reflexivity.
Defined.

(** X24: a service built on [BaseService] needs the database, the
    configuration and the feature flags registered: resolving it throws
    'service not registered' for the first of the three, in that order,
    that is missing. *)
Theorem X24_base_service_dependencies fuel s c token r reg :
  entry s c token = Some r ->
  registrations s !! r = Some reg ->
  instance reg = VUndefined ->
  constructor reg = Class BaseService ->
  (entry s c "database" = None ->
   resolve (S fuel) c token s
     = Throws (ServiceNotRegistered "database") (bump s)) /\
  (forall rd regd,
     entry s c "database" = Some rd -> registrations s !! rd = Some regd ->
     instance regd <> VUndefined ->
     entry s c "config" = None ->
     resolve (S (S fuel)) c token s
       = Throws (ServiceNotRegistered "config") (bump s)) /\
  (forall rd regd rc regc,
     entry s c "database" = Some rd -> registrations s !! rd = Some regd ->
     instance regd <> VUndefined ->
     entry s c "config" = Some rc -> registrations s !! rc = Some regc ->
     instance regc <> VUndefined ->
     entry s c "featureFlags" = None ->
     resolve (S (S (S fuel))) c token s
       = Throws (ServiceNotRegistered "featureFlags") (bump s)).
Proof.
  intros He Hr Hi Hctor.
  assert (Hl : live (bump s) c) by (by apply (entry_live s c token r)).
  assert (Hmiss : forall f t, entry s c t = None ->
            resolve f c t (bump s) = Throws (ServiceNotRegistered t) (bump s)).
  { intros f t Ht. by apply (resolve_unregistered f (bump s) c t). }
  assert (Hhit : forall f t rt regt,
            entry s c t = Some rt -> registrations s !! rt = Some regt ->
            instance regt <> VUndefined ->
            resolve f c t (bump s) = Returns (instance regt) (bump s)).
  { intros f t rt regt Ht Hrt Hit.
    by apply (resolve_cached f (bump s) c t rt regt). }
  split; [|split].
  - intros Hd.
    apply (resolve_construct_throws (S fuel) s c token r reg
             BaseService _ _ He Hr Hi Hctor).
    unfold BaseService. rewrite run_Resolve.
    by rewrite (Hmiss fuel "database" Hd).
  - intros rd regd Hd Hrd Hid Hcfg.
    apply (resolve_construct_throws (S (S fuel)) s c token r reg
             BaseService _ _ He Hr Hi Hctor).
    unfold BaseService. rewrite run_Resolve.
    rewrite (Hhit _ "database" rd regd Hd Hrd Hid). cbn [bind].
    rewrite run_Resolve. by rewrite (Hmiss fuel "config" Hcfg).
  - intros rd regd rc regc Hd Hrd Hid Hcfg Hrc Hic Hff.
    apply (resolve_construct_throws (S (S (S fuel))) s c token r reg
             BaseService _ _ He Hr Hi Hctor).
    unfold BaseService. rewrite run_Resolve.
    rewrite (Hhit _ "database" rd regd Hd Hrd Hid). cbn [bind].
    rewrite run_Resolve.
    rewrite (Hhit _ "config" rc regc Hcfg Hrc Hic). cbn [bind].
    rewrite run_Resolve. by rewrite (Hmiss fuel "featureFlags" Hff).
Qed.

Lemma X24_base_service_dependencies_witness :
  resolve 1 0 "userService" store_no_database
    = Throws (ServiceNotRegistered "database") (bump store_no_database).
Proof.
  destruct (X24_base_service_dependencies 0 store_no_database 0 "userService" 0
              {| constructor := Class BaseService; singleton := true;
                 instance := VUndefined |} eq_refl eq_refl eq_refl eq_refl)
    as (Hdb & _).
  apply Hdb. reflexivity.
Defined.

Lemma Grows_refl s : Grows s s.
Proof. split; [intros c co Hc|intros g m Hg]; eauto. Qed.

Lemma Grows_trans s1 s2 s3 : Grows s1 s2 -> Grows s2 s3 -> Grows s1 s3.
Proof.
  intros [Hc1 Hg1] [Hc2 Hg2]. split.
  - intros c co Hc. destruct (Hc1 c co Hc) as (co' & Hc' & Hr').
    destruct (Hc2 c co' Hc') as (co'' & Hc'' & Hr''). exists co''.
    split; [done|congruence].
  - intros g m Hg. destruct (Hg1 g m Hg) as (m' & Hg' & Hm').
    destruct (Hg2 g m' Hg') as (m'' & Hg'' & Hm''). exists m''.
    split; [done|auto].
Qed.

Lemma Grows_same s s' :
  containers s' = containers s -> registries s' = registries s -> Grows s s'.
Proof.
  intros Hc Hg. split.
  - intros c co H. rewrite Hc. eauto.
  - intros g m H. rewrite Hg. eauto.
Qed.

Lemma store_registration_Grows c token reg s :
  outcome_grows s (store_registration c token reg s).
Proof.
  unfold store_registration.
  destruct (containers s !! c) as [this|]; [|done].
  destruct (registries s !! registry this) as [g0|] eqn:Hg0; [|done].
  unfold set_registries, set_registrations. cbn [outcome_grows].
  split; cbn [containers registries]; [intros c' co Hc'; eauto|].
  intros g m Hg.
  assert (Hlt : registry this < length (registries s)) by (by eapply lookup_lt_Some).
  destruct (decide (g = registry this)) as [->|Hne].
  - rewrite list_lookup_insert_eq by done. eexists. split; [reflexivity|].
    rewrite Hg0 in Hg. injection Hg as <-. intros t Ht.
    destruct (decide (t = token)) as [->|Hn].
    + rewrite lookup_insert_eq. eauto.
    + by rewrite lookup_insert_ne.
  - rewrite list_lookup_insert_ne by done. eauto.
Qed.

Lemma withUser_Grows c u s : outcome_grows s (withUser c u s).
Proof.
  destruct (containers s !! c) as [this|] eqn:Hc;
    [|unfold withUser; by rewrite Hc].
  destruct (withUser_spec c u s this Hc) as (s' & Hw & Hcs & Hgs & _).
  rewrite Hw. cbn [outcome_grows]. split.
  - intros c' co Hc'. exists co. split; [|reflexivity].
    rewrite Hcs. by apply lookup_app_l_Some.
  - intros g m Hg. exists m. split; [|auto].
    rewrite Hgs. by apply lookup_app_l_Some.
Qed.

Lemma setUser_Grows c u s : outcome_grows s (setUser c u s).
Proof.
  unfold setUser. destruct (containers s !! c) as [this|] eqn:Hc; [|done].
  unfold set_containers. cbn [outcome_grows].
  split; cbn [containers registries].
  - intros c' co Hc'.
    assert (c < length (containers s)) by (by eapply lookup_lt_Some).
    destruct (decide (c' = c)) as [->|Hne].
    + rewrite list_lookup_insert_eq by done. eexists. split; [reflexivity|].
      cbn [registry]. congruence.
    + rewrite list_lookup_insert_ne by done. eauto.
  - intros g m Hg. eauto.
Qed.

Lemma bind_grows {A B} s (m : Outcome A) (f : A -> Store -> Outcome B) :
  outcome_grows s m ->
  (forall a s', outcome_grows s' (f a s')) ->
  outcome_grows s (bind m f).
Proof.
  intros Hm Hf. destruct m as [a s'|e s'| |]; simpl in *; try done.
  specialize (Hf a s'). destruct (f a s'); simpl in *; try done;
    eapply Grows_trans; eauto.
Qed.

Lemma resolve_with_Grows runb :
  (forall b s, outcome_grows s (runb b s)) ->
  forall c token s, outcome_grows s (resolve_with runb c token s).
Proof.
  intros Hrun c token s. unfold resolve_with.
  destruct (containers s !! c) as [this|]; [|done].
  destruct (registries s !! registry this) as [g|]; [|done].
  destruct (g !! token) as [r|]; [|apply Grows_refl].
  destruct (registrations s !! r) as [reg|]; [|done].
  destruct (singleton reg && negb (is_undefined (instance reg))); [apply Grows_refl|].
  destruct (negb (is_undefined (instance reg))); [apply Grows_refl|].
  apply bind_grows.
  - unfold construct_with. destruct (constructor reg) as [body|v]; [|apply Grows_refl].
    apply bind_grows.
    + specialize (Hrun (body c) (bump s)).
      destruct (runb (body c) (bump s)); simpl in *; try done;
        (eapply Grows_trans; [|exact Hrun]); by apply Grows_same.
    + intros _ s'. apply Grows_refl.
  - intros inst s'. destruct (registrations s' !! r) as [reg'|]; [|done].
    destruct (singleton reg'); [by apply Grows_same|apply Grows_refl].
Qed.

Lemma run_Grows fuel : forall b s, outcome_grows s (run fuel b s).
Proof.
  induction fuel as [|fuel IH]; intros b s; [done|].
  destruct b; simpl.
  - apply Grows_refl.
  - apply Grows_refl.
  - apply bind_grows; [by apply resolve_with_Grows|auto].
  - apply bind_grows; [|auto]. unfold has.
    destruct (containers s !! c) as [this|]; [|done].
    destruct (registries s !! registry this); [apply Grows_refl|done].
  - apply bind_grows; [|auto]. unfold getContext.
    destruct (containers s !! c); [apply Grows_refl|done].
  - apply bind_grows; [apply store_registration_Grows|auto].
  - apply bind_grows; [apply store_registration_Grows|auto].
  - apply bind_grows; [apply setUser_Grows|auto].
  - apply bind_grows; [apply withUser_Grows|auto].
Qed.




End ContainerFurther.

(** ** The container of [createContainer], and singletons under [withUser] *)

Section ContainerAssembly.
Import Container.
Local Open Scope nat_scope.

Lemma new_Container_spec env0 user0 s :
  exists s0,
    new_Container env0 user0 s = (length (containers s), s0) /\
    containers s0 = (containers s ++
      [ {| registry := length (registries s);
           context := {| env := env0; container := length (containers s);
                         user := user0 |} |} ])%list /\
    registries s0 = (registries s ++ [∅])%list /\
    registrations s0 = registrations s /\
    allocated s0 = allocated s.
Proof. eexists. split; [reflexivity|]. repeat split. Qed.

Lemma store_registration_other c token reg s s' :
  store_registration c token reg s = Returns tt s' ->
  containers s' = containers s /\
  allocated s' = allocated s /\
  registrations s' = (registrations s ++ [reg])%list /\
  entry s' c token = Some (length (registrations s)) /\
  (forall token', token' <> token -> entry s' c token' = entry s c token').
Proof.
  intros Hs.
  assert (Hl : live s c).
  { unfold store_registration in Hs.
    destruct (containers s !! c) as [this|] eqn:Hc; [|done].
    destruct (registries s !! registry this) as [g|] eqn:Hg; [|done].
    by exists this, g. }
  destruct (store_registration_spec c token reg s Hl)
    as (s0 & Hs0 & He & Hr & Hcs & Ha & Ho).
  rewrite Hs in Hs0. injection Hs0 as <-. auto.
Qed.

(** X26: [createContainer] returns a new container without a user in
    which the configuration, the feature flags and the database resolve to
    the objects it was given (a null database handle resolves to null),
    without constructing anything or changing the store, and in which the
    user service resolves to one new object, constructed at the first call
    and returned by every later one. *)
Theorem X26_createContainer env0 config ff database s fuel :
  config <> VUndefined -> ff <> VUndefined -> database <> VUndefined ->
  exists s',
    createContainer env0 config ff database s
      = Returns (length (containers s)) s' /\
    getContext (length (containers s)) s'
      = Returns {| env := env0; container := length (containers s);
                   user := None |} s' /\
    Registry.getConfig fuel (length (containers s)) s' = Returns config s' /\
    Registry.getFeatureFlags fuel (length (containers s)) s' = Returns ff s' /\
    Registry.getDatabase fuel (length (containers s)) s' = Returns database s' /\
    exists s'',
      Registry.getUserService (5 + fuel) (length (containers s)) s'
        = Returns (VObj (allocated s)) s'' /\
      forall fuel',
        Registry.getUserService fuel' (length (containers s)) s''
          = Returns (VObj (allocated s)) s''.
Proof.
  intros Hcfg Hff Hdb. set (c := length (containers s)).
  destruct (new_Container_spec env0 None s) as (s0 & Hnew & Hcs0 & Hgs0 & Hrs0 & Ha0).
  fold c in Hnew, Hcs0.
  assert (Hl0 : live s0 c).
  { eexists; exists ∅. split.
    - rewrite Hcs0. by apply list_lookup_middle.
    - cbn [registry]. rewrite Hgs0. by apply list_lookup_middle. }
  set (n := length (registrations s)).
  destruct (store_registration_spec c "config"
              {| constructor := ArrowFn config; singleton := true;
                 instance := config |} s0 Hl0)
    as (s1 & Hs1 & He1 & Hr1 & Hc1 & Ha1 & Ho1).
  pose proof (entry_live _ _ _ _ He1) as Hl1.
  destruct (store_registration_spec c "featureFlags"
              {| constructor := ArrowFn ff; singleton := true;
                 instance := ff |} s1 Hl1)
    as (s2 & Hs2 & He2 & Hr2 & Hc2 & Ha2 & Ho2).
  pose proof (entry_live _ _ _ _ He2) as Hl2.
  destruct (store_registration_spec c "database"
              {| constructor := ArrowFn database; singleton := true;
                 instance := database |} s2 Hl2)
    as (s3 & Hs3 & He3 & Hr3 & Hc3 & Ha3 & Ho3).
  pose proof (entry_live _ _ _ _ He3) as Hl3.
  destruct (store_registration_spec c "userService"
              {| constructor := Class BaseService; singleton := true;
                 instance := VUndefined |} s3 Hl3)
    as (s4 & Hs4 & He4 & Hr4 & Hc4 & Ha4 & Ho4).
  rewrite Hrs0 in Hr1, He1. fold n in Hr1, He1.
  assert (Hlen1 : length (registrations s1) = S n)
    by (rewrite Hr1, length_app; cbn; lia).
  assert (Hlen2 : length (registrations s2) = S (S n))
    by (rewrite Hr2, length_app; cbn; lia).
  assert (Hlen3 : length (registrations s3) = S (S (S n)))
    by (rewrite Hr3, length_app; cbn; lia).
  rewrite Hlen1 in He2. rewrite Hlen2 in He3. rewrite Hlen3 in He4.
  exists s4. split.
  { unfold createContainer. rewrite Hnew. unfold registerValue, register.
    rewrite Hs1. cbn [bind]. rewrite Hs2. cbn [bind]. rewrite Hs3. cbn [bind].
    cbn [default from_option id]. rewrite Hs4. reflexivity. }
  assert (Hregs : registrations s4
            = (registrations s ++
               [ {| constructor := ArrowFn config; singleton := true;
                    instance := config |};
                 {| constructor := ArrowFn ff; singleton := true;
                    instance := ff |};
                 {| constructor := ArrowFn database; singleton := true;
                    instance := database |};
                 {| constructor := Class BaseService; singleton := true;
                    instance := VUndefined |} ])%list).
  { rewrite Hr4, Hr3, Hr2, Hr1. by rewrite <- !app_assoc. }
  assert (Hat : forall i reg,
            [ {| constructor := ArrowFn config; singleton := true;
                 instance := config |};
              {| constructor := ArrowFn ff; singleton := true; instance := ff |};
              {| constructor := ArrowFn database; singleton := true;
                 instance := database |};
              {| constructor := Class BaseService; singleton := true;
                 instance := VUndefined |} ] !! i = Some reg ->
            registrations s4 !! (n + i) = Some reg).
  { intros i reg Hi. rewrite Hregs. rewrite lookup_app_r by (unfold n; lia).
    replace (n + i - length (registrations s)) with i by (unfold n; lia).
    exact Hi. }
  assert (Hecfg : entry s4 c "config" = Some n).
  { rewrite Ho4, Ho3, Ho2 by done. exact He1. }
  assert (Heff : entry s4 c "featureFlags" = Some (S n)).
  { rewrite Ho4, Ho3 by done. exact He2. }
  assert (Hedb : entry s4 c "database" = Some (S (S n))).
  { rewrite Ho4 by done. exact He3. }
  assert (Hctx : getContext c s4
            = Returns {| env := env0; container := c; user := None |} s4).
  { unfold getContext. rewrite Hc4, Hc3, Hc2, Hc1, Hcs0.
    by rewrite list_lookup_middle. }
  assert (Hrcfg : forall f t, resolve f c "config" t = resolve f c "config" t)
    by reflexivity.
  assert (Hres : forall f s5,
            entry s5 c "config" = Some n ->
            entry s5 c "featureFlags" = Some (S n) ->
            entry s5 c "database" = Some (S (S n)) ->
            (forall i reg, i < 3 ->
               registrations s4 !! (n + i) = Some reg ->
               registrations s5 !! (n + i) = Some reg) ->
            resolve f c "config" s5 = Returns config s5 /\
            resolve f c "featureFlags" s5 = Returns ff s5 /\
            resolve f c "database" s5 = Returns database s5).
  { intros f s5 H1 H2 H3 Hk. split; [|split].
    - apply (resolve_cached f s5 c "config" n
               {| constructor := ArrowFn config; singleton := true;
                  instance := config |}); [done| |done].
      rewrite <- (Nat.add_0_r n). apply Hk; [lia|]. by apply (Hat 0).
    - apply (resolve_cached f s5 c "featureFlags" (S n)
               {| constructor := ArrowFn ff; singleton := true;
                  instance := ff |}); [done| |done].
      replace (S n) with (n + 1) by lia. apply Hk; [lia|]. by apply (Hat 1).
    - apply (resolve_cached f s5 c "database" (S (S n))
               {| constructor := ArrowFn database; singleton := true;
                  instance := database |}); [done| |done].
      replace (S (S n)) with (n + 2) by lia. apply Hk; [lia|]. by apply (Hat 2). }
  destruct (Hres fuel s4 Hecfg Heff Hedb ltac:(auto)) as (Rc & Rf & Rd).
  split; [exact Hctx|]. split; [exact Rc|]. split; [exact Rf|]. split; [exact Rd|].
  assert (Hrun : run (5 + fuel) (BaseService c) (bump s4) = Returns tt (bump s4)).
  { assert (Hb : forall f,
              resolve f c "config" (bump s4) = Returns config (bump s4) /\
              resolve f c "featureFlags" (bump s4) = Returns ff (bump s4) /\
              resolve f c "database" (bump s4) = Returns database (bump s4)).
    { intros f. apply (Hres f (bump s4) Hecfg Heff Hedb). auto. }
    unfold BaseService. change (5 + fuel) with (S (S (S (S (S fuel))))).
    rewrite run_Resolve, (proj2 (proj2 (Hb _))). cbn [bind].
    rewrite run_Resolve, (proj1 (Hb _)). cbn [bind].
    rewrite run_Resolve, (proj1 (proj2 (Hb _))). cbn [bind].
    rewrite run_GetUser.
    assert (Hctxb : getContext c (bump s4)
              = Returns {| env := env0; container := c; user := None |} (bump s4)).
    { unfold getContext in *. cbn [bump containers].
      destruct (containers s4 !! c); [|discriminate]. by injection Hctx as ->. }
    rewrite Hctxb. reflexivity. }
  assert (Hsvc : registrations s4 !! (S (S (S n)))
            = Some {| constructor := Class BaseService; singleton := true;
                      instance := VUndefined |}).
  { replace (S (S (S n))) with (n + 3) by lia. by apply (Hat 3). }
  pose proof (resolve_construct (5 + fuel) s4 c "userService" (S (S (S n))) _
                BaseService (bump s4) He4 Hsvc eq_refl eq_refl Hrun) as Hfirst.
  cbn [singleton] in Hfirst.
  assert (Hall : allocated s4 = allocated s) by congruence.
  rewrite Hall in Hfirst.
  eexists. split; [exact Hfirst|].
  intros fuel'.
  apply (resolve_cached fuel' _ c "userService" (S (S (S n)))
           {| constructor := Class BaseService; singleton := true;
              instance := VObj (allocated s) |}).
  - exact He4.
  - unfold set_instance, set_registrations. cbn [registrations bump].
    by rewrite list_lookup_alter_eq, Hsvc.
  - discriminate.
Qed.

Lemma X26_createContainer_witness :
  exists s' s'',
    createContainer ∅ (VObj 100) (VObj 101) VNull empty_store = Returns 0 s' /\
    Registry.getDatabase 0 0 s' = Returns VNull s' /\
    Registry.getUserService 5 0 s' = Returns (VObj 0) s''.
Proof.
  destruct (X26_createContainer ∅ (VObj 100) (VObj 101) VNull empty_store 0)
    as (s' & Hc & _ & _ & _ & Hd & s'' & Hu & _); try discriminate.
  exists s', s''. split; [exact Hc|]. split; [exact Hd|exact Hu].
Defined.



End ContainerAssembly.

(** ** Role guards and the authentication middleware *)

Section Guards.
Import Container.
Local Open Scope nat_scope.

Lemma role_is_Some x role : Base.role_is x role = true <-> x = Some role.
Proof.
  destruct x as [r|]; simpl; [|done].
  destruct (String.eqb_spec r role); split; congruence.
Qed.

Lemma resolve_Grows fuel c token s : outcome_grows s (resolve fuel c token s).
Proof. apply (resolve_with_Grows (run fuel) (run_Grows fuel)). Qed.

Lemma Grows_live s s' c : Grows s s' -> live s c -> live s' c.
Proof.
  intros [Hcs Hgs] (this & g & Hc & Hg).
  destruct (Hcs c this Hc) as (this' & Hc' & Hr).
  destruct (Hgs _ g Hg) as (g' & Hg' & _).
  exists this', g'. by rewrite Hr.
Qed.

(** X28: the role guards of the services and of the middleware.  The
    service method [requireRole] passes exactly when [hasRole] is true,
    and fails for want of a user exactly when the service has none.  The
    middleware [requireRole] passes exactly when [hasRole] would and the
    required role is not the empty string (a user whose role is the empty
    string passes the service guard for the empty role and not the
    middleware's).  [requireAnyRole] passes exactly when [requireRole]
    passes for one of the listed roles. *)
Theorem X28_role_guards ff (u : option User.t) role roles :
  (Base.requireRole (Base.Build_t ff u) role = inr tt
     <-> Base.hasRole (Base.Build_t ff u) role = true) /\
  (Base.requireRole (Base.Build_t ff u) role = inl Base.UserAuthenticationRequired
     <-> u = None) /\
  (Auth.requireRole role u = Auth.Next
     <-> Base.hasRole (Base.Build_t ff u) role = true /\ role <> "") /\
  (Auth.requireAnyRole roles u = Auth.Next
     <-> exists r, r ∈ roles /\ Auth.requireRole r u = Auth.Next).
Proof.
  unfold Base.requireRole, Base.requireUser, Base.hasRole, Auth.requireRole,
    Auth.requireAnyRole, Auth.no_role.
  cbn [Base.currentUser].
  destruct u as [u|].
  - destruct (User.role u) as [x|] eqn:Hx; cbn [Base.role_is Str.or_empty default].
    + split; [|split; [|split]].
      * destruct (String.eqb_spec x role); simpl; split; congruence.
      * destruct (String.eqb x role); simpl; split; congruence.
      * destruct (String.eqb_spec x ""), (String.eqb_spec x role); simpl;
          split; try congruence; try (intros [? ?]; congruence).
        intros _. split; congruence.
      * unfold Str.mem. destruct (String.eqb_spec x "") as [->|Hne]; simpl.
        { split; [done|]. intros (r & _ & Hr). done. }
        destruct (existsb (String.eqb x) roles) eqn:He; simpl.
        { split; [|done]. intros _. apply existsb_exists in He as (r & Hin & Hr).
          apply String.eqb_eq in Hr as <-. exists x.
          split; [by apply list_elem_of_In|]. by rewrite String.eqb_refl. }
        { split; [done|]. intros (r & Hin & Hr).
          destruct (String.eqb_spec x r) as [<-|]; [|done].
          assert (existsb (String.eqb x) roles = true); [|congruence].
          apply existsb_exists. exists x.
          split; [by apply list_elem_of_In|apply String.eqb_refl]. }
    + simpl. split; [|split; [|split]]; split; try done.
      * intros [? _]. done.
      * intros (r & _ & ?). done.
  - simpl. split; [|split; [|split]]; split; try done.
    + intros [? _]. done.
    + intros (r & _ & ?). done.
Qed.

(** X29: what [authMiddleware] does before it calls [next].  When the
    database resolves to a falsy value (the [null] handle of a container
    made without a database) every request is answered with
    'Authentication service unavailable', whatever its session; when no
    database is registered, with 'Authentication failed'.  When the
    middleware does go on, the request had a session, the user of the
    container the middleware was made for is now that session's user, and
    that user has no role: the middleware guard [requireRole] and the
    service guard [requireRole] reject it for every role. *)
Theorem X29_authMiddleware fuel c session s :
  live s c ->
  (forall db s1,
     Registry.getDatabase fuel c s = Returns db s1 ->
     Auth.truthy db = false ->
     Auth.authMiddleware fuel c session s
       = Auth.Reject "Authentication service unavailable" s1) /\
  (entry s c "database" = None ->
     Auth.authMiddleware fuel c session s
       = Auth.Reject "Authentication failed" s) /\
  (forall s',
     Auth.authMiddleware fuel c session s = Auth.Proceed s' ->
     exists su ctx,
       session = Some su /\
       getContext c s' = Returns ctx s' /\
       user ctx = Some (Auth.toUser su) /\
       forall role ff,
         Auth.requireRole role (user ctx)
           = Auth.Forbidden ("Role '" +:+ role +:+ "' required") /\
         Base.requireRole (Base.of_context ff ctx) role
           = inl (Base.RoleRequired role)).
Proof.
  intros Hl. pose proof Hl as (this & g & Hc & Hg).
  unfold Auth.authMiddleware, getContext. rewrite Hc.
  split; [|split].
  - intros db s1 -> ->. reflexivity.
  - intros He. unfold Registry.getDatabase.
    by rewrite (resolve_unregistered fuel s c "database" Hl He).
  - intros s'.
    destruct (Registry.getDatabase fuel c s) as [db s1|e s1| |]; try done.
    destruct (Auth.truthy db); simpl; [|done].
    destruct session as [su|]; [|done].
    unfold setUser.
    destruct (containers s1 !! c) as [this1|] eqn:Hc1; [|done].
    intros [= <-]. exists su. eexists. split; [done|].
    assert (Hlt : c < length (containers s1)) by (by eapply lookup_lt_Some).
    unfold set_containers. cbn [containers].
    rewrite list_lookup_insert_eq by done. cbn [context].
    split; [reflexivity|]. split; [reflexivity|].
    intros role ff. split; reflexivity.
Qed.

Lemma X29_authMiddleware_witness :
  exists ctx s',
    Auth.authMiddleware 1 0 (Some session_jo) store_database = Auth.Proceed s' /\
    getContext 0 s' = Returns ctx s' /\
    Base.requireRole (Base.of_context no_flags ctx) "admin"
      = inl (Base.RoleRequired "admin").
Proof.
  assert (Hl : live store_database 0).
  { eexists; eexists. split; reflexivity. }
  destruct (X29_authMiddleware 1 0 (Some session_jo) store_database Hl)
    as (_ & _ & Hgo).
  destruct (Hgo (the_store (setUser 0 (Auth.toUser session_jo) store_database))
              eq_refl) as (su & ctx & _ & Hctx & _ & Hrole).
  exists ctx. eexists. split; [reflexivity|]. split; [exact Hctx|].
  apply (Hrole "admin" no_flags).
Defined.

(** X30: what [optionalAuthMiddleware] does before it calls [next], once
    the database has been resolved.  It always goes on to [next].  It puts
    a container in the request context exactly when the database is truthy
    and the request has a session; that container is a new one, its
    context holds the session's user, and it resolves every token to the
    registration the given container resolves it to.  No container that
    existed is changed (the given container keeps the user it had) and no
    registration is touched. *)
Theorem X30_optionalAuthMiddleware fuel c session s db s1 :
  live s c ->
  Registry.getDatabase fuel c s = Returns db s1 ->
  exists r s',
    Auth.optionalAuthMiddleware fuel c session s = Some (r, s') /\
    (forall c' co, containers s1 !! c' = Some co -> containers s' !! c' = Some co) /\
    registrations s' = registrations s1 /\
    (r = None <-> Auth.truthy db = false \/ session = None) /\
    forall d, r = Some d ->
      containers s1 !! d = None /\
      exists su ctx,
        session = Some su /\
        getContext d s' = Returns ctx s' /\
        user ctx = Some (Auth.toUser su) /\
        forall token, entry s' d token = entry s1 c token.
Proof.
  intros Hl Hdb. pose proof Hl as (this & g & Hc & Hg).
  assert (Hl1 : live s1 c).
  { pose proof (resolve_Grows fuel c "database" s) as Hgr.
    unfold Registry.getDatabase in Hdb. rewrite Hdb in Hgr.
    by apply (Grows_live s s1 c). }
  unfold Auth.optionalAuthMiddleware, getContext. rewrite Hc, Hdb.
  destruct (Auth.truthy db) eqn:Ht.
  - destruct session as [su|].
    + pose proof Hl1 as (this1 & g1 & Hc1 & Hg1).
      destruct (withUser_entries c (Auth.toUser su) s1 this1 Hc1)
        as (s' & Hw & Hrs & Ha & Hnew & Hold & Hlive & Hent & Hd).
      destruct (Hd Hl1) as (Hdl & Hde).
      rewrite Hw. exists (Some (length (containers s1))), s'.
      split; [done|]. split; [done|]. split; [done|]. split.
      { split; [done|]. intros [?|?]; done. }
      intros d [= <-]. split; [by apply lookup_ge_None_2|].
      exists su. eexists. split; [done|]. rewrite Hnew.
      split; [reflexivity|]. split; [reflexivity|]. exact Hde.
    + exists None, s1. split; [done|]. split; [done|]. split; [done|].
      split; [|done]. split; auto.
  - exists None, s1. split; [done|]. split; [done|]. split; [done|].
    split; [|done]. split; auto.
Qed.

Lemma X30_optionalAuthMiddleware_witness :
  exists d s',
    Auth.optionalAuthMiddleware 1 0 (Some session_jo) store_database
      = Some (Some d, s') /\
    getContext 0 s' = Returns {| env := ∅; container := 0; user := None |} s' /\
    entry s' d "database" = entry store_database 0 "database".
Proof.
  assert (Hl : live store_database 0).
  { eexists; eexists. split; reflexivity. }
  destruct (X30_optionalAuthMiddleware 1 0 (Some session_jo) store_database
              (VObj 102) store_database Hl eq_refl)
    as (r & s' & Hm & Hold & _ & Hnone & Hsome).
  destruct r as [d|].
  - destruct (Hsome d eq_refl) as (_ & su & ctx & _ & _ & _ & He).
    exists d, s'. split; [exact Hm|]. split; [|apply He].
    unfold getContext. by rewrite (Hold 0 _ eq_refl).
  - destruct (proj1 Hnone eq_refl) as [Hf|Hf]; discriminate Hf.
Defined.

End Guards.
